(** * Stone Soup: time-series interpolation of state sequences

    Shallow embedding of [stonesoup/functions/interpolate.py]:
    [time_range], [interpolate_state_mutable_sequence] and
    [_get_previous_state].

    Conventions of the embedding.
    - A [datetime.datetime] is the integer number of microseconds of its
      date and time (the resolution of the Python type), which is what
      datetimes are compared by; a [datetime.timedelta] is a signed number
      of microseconds.
    - A Python float is an IEEE 754 binary64 number, a [spec_float] of the
      Standard Library with precision 53 and maximal exponent 1024; every
      operation rounds to nearest, ties to even, on its own.
    - [datetime.timestamp()] depends on the kind of datetime (naive or
      aware) and on the local time zone: it is a parameter of the embedding,
      the class [Platform].  The instance [aware_utc] is the one of aware
      datetimes in UTC.
    - A raised exception is the [Raise] branch of [Result]; a warning is
      appended to the list of warnings of the call.
    - Objects whose attributes are rebound (the sequence object and the lists
      it points to) live in a store addressed by references. *)

From Stdlib Require Import ZArith QArith Qabs Lia SpecFloat.
From stdpp Require Import base option list gmap sorting.

Open Scope Z_scope.

(** ** Exceptions and results *)

Inductive Exn : Set :=
| IndexError | ValueError | KeyError | StopIteration | ZeroDivisionError | TypeError
| OverflowError.

Inductive Result (X : Type) : Type :=
| Ok (x : X)
| Raise (e : Exn).
Arguments Ok {X} x.
Arguments Raise {X} e.

Definition bindR {X Y : Type} (r : Result X) (k : X → Result Y) : Result Y :=
  match r with
  | Ok x => k x
  | Raise e => Raise e
  end.

Notation "'do' x <- r ; k" := (bindR r (fun x => k))
  (at level 10, x pattern, r at level 100, k at level 200).

Fixpoint mapR {X Y : Type} (f : X → Result Y) (l : list X) : Result (list Y) :=
  match l with
  | [] => Ok []
  | x :: l' => do y <- f x; do ys <- mapR f l'; Ok (y :: ys)
  end.

(** ** Floats

    The floats of Python and numpy are the valid binary64 numbers
    ([valid_binary 53 1024]): the operations below keep them valid, and on
    them the comparisons are the numeric ones. *)

Abbreviation float := spec_float (only parsing).

Definition float_add (a b : float) : float := SFadd 53 1024 a b.
Definition float_sub (a b : float) : float := SFsub 53 1024 a b.
Definition float_mul (a b : float) : float := SFmul 53 1024 a b.
Definition float_div (a b : float) : float := SFdiv 53 1024 a b.

(** The comparisons [a < b], [a <= b] and [a == b] of C and Python: false
    as soon as one side is not a number. *)
Definition float_lt (a b : float) : bool := SFltb a b.
Definition float_le (a b : float) : bool := SFleb a b.
Definition float_eq (a b : float) : bool := SFeqb a b.

Definition float_isnan (x : float) : bool :=
  match x with
  | S754_nan => true
  | _ => false
  end.

Definition float_zero : float := S754_zero false.

(** [float(z)] of an integer: the nearest double. *)
Definition float_of_Z (z : Z) : float := binary_normalize 53 1024 z 0 false.

(** The double nearest to the quotient of two integers, [b] not zero;
    an infinity when the quotient is beyond the doubles. *)
Definition nearest_quotient (a b : Z) : float :=
  match a with
  | Z0 => S754_zero (b <? 0)
  | _ => float_div (S754_finite (a <? 0) (Z.to_pos (Z.abs a)) 0)
                   (S754_finite (b <? 0) (Z.to_pos (Z.abs b)) 0)
  end.

(** [a / b] on two Python integers: true division, correctly rounded. *)
Definition int_truediv (a b : Z) : Result float :=
  if b =? 0 then Raise ZeroDivisionError
  else match nearest_quotient a b with
       | S754_infinity _ => Raise OverflowError
       | q => Ok q
       end.

(** [int(x)] on a float: truncation towards zero. *)
Definition int_of_float (x : float) : Result Z :=
  match x with
  | S754_nan => Raise ValueError
  | S754_infinity _ => Raise OverflowError
  | S754_zero _ => Ok 0
  | S754_finite s m e =>
      let a := Z.shiftl (Z.pos m) e in
      Ok (if s then - a else a)
  end.

(** ** Time *)

Abbreviation datetime := Z (only parsing).
Abbreviation timedelta := Z (only parsing).

(** [datetime.timedelta(seconds=s)] *)
Definition timedelta_seconds (s : Z) : timedelta := s * 1000000.

(** [a / b] on two timedeltas: the true division of their numbers of
    microseconds, a float. *)
Definition timedelta_truediv (a b : timedelta) : Result float := int_truediv a b.

(** [range(n)]: 0, 1, ..., n-1; empty when [n <= 0]. *)
Definition range (n : Z) : list Z := Z.of_nat <$> seq 0 (Z.to_nat n).

(** [time.timestamp()]: seconds since the epoch, a float.  For a naive
    datetime Python goes through the local time zone, for an aware one
    through its offset from UTC; the embedding takes the conversion as
    given. *)
Class Platform : Type := { datetime_timestamp : datetime → float }.

(** [time.timestamp()] of an aware datetime in UTC, the datetime being its
    number of microseconds since the epoch:
    [(self - _EPOCH).total_seconds()], the microseconds divided by [10**6]. *)
Definition utc_timestamp (t : datetime) : float := nearest_quotient t 1000000.

(** ** [time_range] (lines 27-48) *)

Definition time_range (start_time end_time : datetime) (timestep : timedelta)
  : Result (list datetime) :=
  let duration := end_time - start_time in
  do n_time_steps <- timedelta_truediv duration timestep;
  do n <- int_of_float n_time_steps;
  Ok ((λ x, start_time + x * timestep) <$> range (n + 1)).

(** The default value of [timestep] is [datetime.timedelta(seconds=1)]. *)
Definition time_range_default (start_time end_time : datetime) : Result (list datetime) :=
  time_range start_time end_time (timedelta_seconds 1).

(** What the specification asks of [time_range]: [start + k * step] for
    [k = 0 .. floor ((end - start) / step)]. *)
Definition time_range_spec (start_time end_time : datetime) (timestep : timedelta)
  : list datetime :=
  (λ k, start_time + k * timestep) <$> range ((end_time - start_time) `div` timestep + 1).

(** ** States

    Modelled from the spec: the state type ([stonesoup.types.state.State]) is
    not part of the sources at hand.  A state is a timestamp, a numeric
    vector and further attributes that interpolation does not look at.  The
    vector is taken to hold floats, on which [astype(float)] changes
    nothing. *)

Record State (A : Type) : Type := mkState {
  timestamp : datetime;
  state_vector : list float;
  attributes : A
}.
Arguments mkState {A} timestamp state_vector attributes.
Arguments timestamp {A} s.
Arguments state_vector {A} s.
Arguments attributes {A} s.

(** [state.ndim]: the number of rows of the state vector. *)
Definition ndim {A} (s : State A) : nat := length (state_vector s).

(** Modelled from the spec: the clone-with-override operation
    [State.from_state(state, timestamp=..., state_vector=...)] gives a new
    state with the non-vector attributes of the reference state and the new
    timestamp and vector. *)
Definition from_state {A} (state : State A) (timestamp' : datetime)
    (state_vector' : list float) : State A :=
  mkState timestamp' state_vector' (attributes state).

(** ** Python dictionaries keyed by time

    A [dict] keeps its keys in the order of their first insertion;
    assigning to a key that is present replaces the value where it stands. *)

Section dict.
Context {V : Type}.

Fixpoint dict_set (d : list (datetime * V)) (k : datetime) (v : V) : list (datetime * V) :=
  match d with
  | [] => [(k, v)]
  | (k', v') :: d' =>
      if decide (k' = k) then (k', v) :: d' else (k', v') :: dict_set d' k v
  end.

Fixpoint dict_get (d : list (datetime * V)) (k : datetime) : option V :=
  match d with
  | [] => None
  | (k', v') :: d' => if decide (k' = k) then Some v' else dict_get d' k
  end.

Definition dict_keys (d : list (datetime * V)) : list datetime := d.*1.
Definition dict_values (d : list (datetime * V)) : list V := d.*2.

(** [d[k]], raising [KeyError] on a missing key. *)
Definition dict_getitem (d : list (datetime * V)) (k : datetime) : Result V :=
  match dict_get d k with
  | Some v => Ok v
  | None => Raise KeyError
  end.
End dict.

(** ** [numpy.interp]

    [np.interp(x, xp, fp)] as numpy's [arr_interp] computes it on doubles:
    for each [x] in turn it looks up the index [j] of the sample interval
    that holds [x], starting from the index found for the [x] before, and
    evaluates the line through the two samples.  Nothing checks that [xp]
    increases. *)

(** [arr[i]] *)
Definition arr_get (arr : list float) (i : Z) : float := nth (Z.to_nat i) arr S754_nan.

(** [for (i = 1; i < len && key >= arr[i]; ++i);] started at [i], over the
    elements of the array from index [i] on. *)
Fixpoint linear_search (key : float) (rest : list float) (i : nat) : nat :=
  match rest with
  | [] => i
  | a :: rest' => if float_le a key then linear_search key rest' (S i) else i
  end.

Definition LIKELY_IN_CACHE_SIZE : Z := 8.

(** The bisection loop, [while (imin < imax)], which ends by
    [return imin - 1].  The interval shrinks at each turn, so [imax - imin]
    turns are enough. *)
Fixpoint bisection (turns : nat) (key : float) (arr : list float) (imin imax : Z) : Z :=
  if imin <? imax then
    match turns with
    | O => imin - 1
    | S turns' =>
        let imid := imin + Z.shiftr (imax - imin) 1 in
        if float_le (arr_get arr imid) key then bisection turns' key arr (imid + 1) imax
        else bisection turns' key arr imin imid
    end
  else imin - 1.

Definition binary_search_with_guess (key : float) (arr : list float) (guess : Z) : Z :=
  let len := Z.of_nat (length arr) in
  if float_lt (arr_get arr (len - 1)) key then len
  else if float_lt key (arr_get arr 0) then -1
  else if len <=? 4 then Z.of_nat (linear_search key (tail arr) 1) - 1
  else
    let guess := if len - 3 <? guess then len - 3 else guess in
    let guess := if guess <? 1 then 1 else guess in
    if float_lt key (arr_get arr guess) then
      if float_lt key (arr_get arr (guess - 1)) then
        let imax := guess - 1 in
        let imin :=
          if (LIKELY_IN_CACHE_SIZE <? guess)
             && float_le (arr_get arr (guess - LIKELY_IN_CACHE_SIZE)) key
          then guess - LIKELY_IN_CACHE_SIZE else 0 in
        bisection (Z.to_nat (imax - imin)) key arr imin imax
      else guess - 1
    else if float_lt key (arr_get arr (guess + 1)) then guess
    else if float_lt key (arr_get arr (guess + 2)) then guess + 1
    else
      let imin := guess + 2 in
      let imax :=
        if (guess <? len - LIKELY_IN_CACHE_SIZE - 1)
           && float_lt key (arr_get arr (guess + LIKELY_IN_CACHE_SIZE))
        then guess + LIKELY_IN_CACHE_SIZE else len in
      bisection (Z.to_nat (imax - imin)) key arr imin imax.

(** The line through the samples [j] and [j + 1] at [x_val], with numpy's
    second try when the first gives no number. *)
Definition interp_line (x0 x1 y0 y1 x_val : float) : float :=
  let slope := float_div (float_sub y1 y0) (float_sub x1 x0) in
  let r := float_add (float_mul slope (float_sub x_val x0)) y0 in
  if float_isnan r then
    let r' := float_add (float_mul slope (float_sub x_val x1)) y1 in
    if float_isnan r' && float_eq y0 y1 then y0 else r'
  else r.

(** The value for [x_val] once the index [j] is found; [left] and [right]
    are not given, so they are the first and the last of [dy]. *)
Definition interp_value (dx dy : list float) (x_val : float) (j : Z) : float :=
  let lenxp := Z.of_nat (length dx) in
  if j =? -1 then arr_get dy 0
  else if j =? lenxp then arr_get dy (lenxp - 1)
  else if j =? lenxp - 1 then arr_get dy j
  else if float_eq (arr_get dx j) x_val then arr_get dy j
  else interp_line (arr_get dx j) (arr_get dx (j + 1)) (arr_get dy j) (arr_get dy (j + 1))
         x_val.

(** The loop over [x] for at least two samples; [j] is the index found for
    the value before. *)
Fixpoint interp_loop (dx dy : list float) (x : list float) (j : Z) : list float :=
  match x with
  | [] => []
  | x_val :: x' =>
      if float_isnan x_val then x_val :: interp_loop dx dy x' j
      else
        let j' := binary_search_with_guess x_val dx j in
        interp_value dx dy x_val j' :: interp_loop dx dy x' j'
  end.

(** What [np.interp] returns when it returns. *)
Definition np_interp_values (x xp fp : list float) : list float :=
  if (length xp =? 1)%nat then (λ _, arr_get fp 0) <$> x
  else interp_loop xp fp x 0.

Definition np_interp (x xp fp : list float) : Result (list float) :=
  if (length xp =? 0)%nat then Raise ValueError
  else if negb (length fp =? length xp)%nat then Raise ValueError
  else Ok (np_interp_values x xp fp).

(** Modelled from the spec: [StateVectors] ([stonesoup.types.array]) stacks
    the given column vectors into a [D x N] matrix, which fails unless all
    have the same number of rows.  The matrix is kept as its list of
    columns. *)
Definition StateVectors (columns : list (list float)) : Result (list (list float)) :=
  match columns with
  | [] => Ok []
  | c :: _ =>
      if forallb (λ c', (length c' =? length c)%nat) columns then Ok columns
      else Raise ValueError
  end.

(** [m[element_index, :]] *)
Definition matrix_row (m : list (list float)) (element_index : nat) : Result (list float) :=
  mapR (λ c, match c !! element_index with Some q => Ok q | None => Raise IndexError end) m.

(** [rows[:, state_index]] of a matrix kept as its list of rows, every row
    being as long as the number of columns. *)
Definition matrix_column (rows : list (list float)) (state_index : nat) : list float :=
  (λ r, nth state_index r float_zero) <$> rows.

(** ** [_get_previous_state] (lines 163-187) *)

(** [pairwise(l)]: (l0,l1), (l1,l2), ... *)
Definition pairwise {X : Type} (l : list X) : list (X * X) := zip l (tail l).

(** The variables the closure [inner_fun] captures: the iterator over the
    pairs not yet taken, and the current pair. *)
Record Cursor (A : Type) : Type := mkCursor {
  state_iter : list (State A * State A);
  state_before : State A;
  state_after : State A
}.
Arguments mkCursor {A} state_iter state_before state_after.
Arguments state_iter {A} c.
Arguments state_before {A} c.
Arguments state_after {A} c.

Definition _get_previous_state {A} (states : list (State A)) : Result (Cursor A) :=
  match pairwise states with
  | [] => Raise StopIteration
  | (b, a) :: rest => Ok (mkCursor rest b a)
  end.

(** The [while] loop of [inner_fun], by recursion on the pairs left in the
    iterator.  The captured variables are updated as the loop goes, so they
    keep the last pair taken when [next] raises. *)
Fixpoint inner_fun_loop {A} (it : list (State A * State A)) (before after : State A)
    (t : datetime) : Result (State A) * Cursor A :=
  if timestamp after <? t then
    match it with
    | [] => (Raise StopIteration, mkCursor [] before after)
    | (b, a) :: it' => inner_fun_loop it' b a t
    end
  else (Ok before, mkCursor it before after).

Definition inner_fun {A} (c : Cursor A) (t : datetime) : Result (State A) * Cursor A :=
  inner_fun_loop (state_iter c) (state_before c) (state_after c) t.

(** ** The sequence object and the store

    Modelled from the spec: the container type
    ([stonesoup.types.state.StateMutableSequence], and [Track] with its
    [metadatas] side list) is not part of the sources at hand.  A sequence
    object holds a reference to its list of states and, for the kinds that
    have one, a reference to its list of metadatas; [sms.state], the current
    state, is the last state of the list; iterating the sequence and indexing
    it go to the list of states. *)

Abbreviation loc := nat (only parsing).

Record SmsObject : Set := mkSms {
  attr_states : loc;
  attr_metadatas : option loc
}.

Inductive Cell (A M : Type) : Type :=
| CSms (o : SmsObject)
| CStates (l : list (State A))
| CMetadatas (l : list M).
Arguments CSms {A M} o.
Arguments CStates {A M} l.
Arguments CMetadatas {A M} l.

(** The warning of lines 125-127 with the values it prints. *)
Inductive Warning : Type :=
| OutsideTimeRange (min_state_time max_state_time : datetime) (removed_times : gset Z).

(** The argument [times]: one time or a list of times. *)
Inductive Times : Set :=
| OneTime (t : datetime)
| TimeList (ts : list datetime).

Inductive Returned (A : Type) : Type :=
| RState (s : State A)
| RSms (r : loc).
Arguments RState {A} s.
Arguments RSms {A} r.

(** [l[-1]] and [l[0]] *)
Definition getitem_last {X : Type} (l : list X) : Result X :=
  match last l with
  | Some x => Ok x
  | None => Raise IndexError
  end.

Definition getitem_first {X : Type} (l : list X) : Result X :=
  match l with
  | x :: _ => Ok x
  | [] => Raise IndexError
  end.

(** [max(l)] and [min(l)] *)
Definition py_max (l : list Z) : Result Z :=
  match l with
  | [] => Raise ValueError
  | x :: l' => Ok (foldl Z.max x l')
  end.

Definition py_min (l : list Z) : Result Z :=
  match l with
  | [] => Raise ValueError
  | x :: l' => Ok (foldl Z.min x l')
  end.

(** [sorted(s)] of a set of times *)
Definition sorted (s : gset Z) : list datetime := merge_sort Z.le (elements s).

Section interpolate.
Context `{Platform} {A M : Type}.

(** Lines 109-110: [{state.timestamp: state for state in sms}] *)
Definition time_state_dict_of (states : list (State A)) : list (datetime * State A) :=
  foldl (λ d state, dict_set d (timestamp state) state) [] states.

(** Lines 112-129: the times kept and the warning given, or [IndexError].
    [max(times)] and [min(times)] raise the same [ValueError] on an empty
    list, so both are taken before the test. *)
Definition filter_times (states : list (State A)) (times : list datetime)
  : Result (list datetime * list Warning) :=
  do sms_last <- getitem_last states;
  let max_state_time := timestamp sms_last in
  do sms_first <- getitem_first states;
  let min_state_time := timestamp sms_first in
  do max_times <- py_max times;
  do min_times <- py_min times;
  if (max_state_time <? max_times) || (min_times <? min_state_time) then
    let new_times :=
      filter (λ time, min_state_time ≤ time ∧ time ≤ max_state_time) times in
    if (length new_times =? 0)%nat then Raise IndexError
    else
      let removed_times : gset Z := list_to_set times ∖ list_to_set new_times in
      Ok (new_times, [OutsideTimeRange min_state_time max_state_time removed_times])
  else Ok (times, []).

(** Lines 151-156: the loop over [enumerate(times_to_interpolate)], which
    calls the cursor and assigns into the dictionary. *)
Fixpoint synthesize (retrieve_previous_state_fun : Cursor A)
    (interp_output : list (list float)) (time_state_dict : list (datetime * State A))
    (state_index : nat) (times_to_interpolate : list datetime)
  : Result (list (datetime * State A)) :=
  match times_to_interpolate with
  | [] => Ok time_state_dict
  | time :: rest =>
      let '(r, cursor') := inner_fun retrieve_previous_state_fun time in
      do original_state_before <- r;
      synthesize cursor' interp_output
        (dict_set time_state_dict time
           (from_state original_state_before time
              (matrix_column interp_output state_index)))
        (S state_index) rest
  end.

(** Lines 144-148: one call of [np.interp] per row of the matrix. *)
Definition interp_rows (n_rows : nat) (state_vectors : list (list float))
    (interp_timestamps state_timestamps : list float) : Result (list (list float)) :=
  mapR (λ element_index,
          do fp <- matrix_row state_vectors element_index;
          np_interp interp_timestamps state_timestamps fp)
       (seq 0 n_rows).

(** Lines 131-156: the dictionary after the missing times are filled in. *)
Definition interpolate_missing (states : list (State A))
    (time_state_dict : list (datetime * State A)) (times : list datetime)
  : Result (list (datetime * State A)) :=
  let times_to_interpolate :=
    sorted (list_to_set times ∖ list_to_set (dict_keys time_state_dict)) in
  if (0 <? length times_to_interpolate)%nat then
    do state_vectors <- StateVectors (state_vector <$> dict_values time_state_dict);
    (* state_vectors.astype(float): the vectors hold floats already *)
    let state_timestamps := datetime_timestamp <$> dict_keys time_state_dict in
    let interp_timestamps := datetime_timestamp <$> times_to_interpolate in
    do sms_state <- getitem_last states;
    do interp_output <-
      interp_rows (ndim sms_state) state_vectors interp_timestamps state_timestamps;
    do retrieve_previous_state_fun <- _get_previous_state states;
    synthesize retrieve_previous_state_fun interp_output time_state_dict 0
      times_to_interpolate
  else Ok time_state_dict.

(** Lines 107-158: the states of the result, computed from the states of
    the sequence and the list of times; nothing here touches an object. *)
Definition interpolate_states (states : list (State A)) (times : list datetime)
  : list Warning * Result (list (State A)) :=
  let time_state_dict := time_state_dict_of states in
  match filter_times states times with
  | Raise e => ([], Raise e)
  | Ok (times', warnings) =>
      (warnings,
       do time_state_dict' <- interpolate_missing states time_state_dict times';
       mapR (dict_getitem time_state_dict') times')
  end.

(** *** The store *)

Definition alloc (h : list (Cell A M)) (c : Cell A M) : loc * list (Cell A M) :=
  (length h, h ++ [c]).

Definition get_sms (h : list (Cell A M)) (r : loc) : Result SmsObject :=
  match h !! r with
  | Some (CSms o) => Ok o
  | _ => Raise TypeError
  end.

Definition get_states (h : list (Cell A M)) (r : loc) : Result (list (State A)) :=
  match h !! r with
  | Some (CStates l) => Ok l
  | _ => Raise TypeError
  end.

Definition get_metadatas (h : list (Cell A M)) (r : loc) : Result (list M) :=
  match h !! r with
  | Some (CMetadatas l) => Ok l
  | _ => Raise TypeError
  end.

(** [sms.states] read through the object *)
Definition sms_states (h : list (Cell A M)) (sms : loc) : Result (list (State A)) :=
  do o <- get_sms h sms; get_states h (attr_states o).

(** [sms.metadatas] read through the object, when it has the attribute *)
Definition sms_metadatas (h : list (Cell A M)) (sms : loc) : Result (option (list M)) :=
  do o <- get_sms h sms;
  match attr_metadatas o with
  | None => Ok None
  | Some r => do l <- get_metadatas h r; Ok (Some l)
  end.

(** Lines 102-160: the call on a list of times.  The result is the list
    of warnings, the returned reference or the exception, and the store
    after the call. *)
Definition interpolate_times_list (sms : loc) (times : list datetime) (h : list (Cell A M))
  : list Warning * Result loc * list (Cell A M) :=
  match get_sms h sms with
  | Raise e => ([], Raise e, h)
  | Ok o =>
      (* new_sms = copy.copy(sms) *)
      let '(new_sms, h) := alloc h (CSms o) in
      (* if hasattr(new_sms, "metadatas"): new_sms.metadatas = list() *)
      let '(o', h) :=
        match attr_metadatas o with
        | Some _ =>
            let '(l, h) := alloc h (CMetadatas []) in
            let o' := mkSms (attr_states o) (Some l) in
            (o', <[new_sms := CSms o']> h)
        | None => (o, h)
        end in
      match get_states h (attr_states o) with
      | Raise e => ([], Raise e, h)
      | Ok states =>
          match interpolate_states states times with
          | (warnings, Raise e) => (warnings, Raise e, h)
          | (warnings, Ok new_states) =>
              (* new_sms.states = [...] *)
              let '(l, h) := alloc h (CStates new_states) in
              (warnings, Ok new_sms,
               <[new_sms := CSms (mkSms l (attr_metadatas o'))]> h)
          end
      end
  end.

(** Lines 51-160.  A single time goes through the list form and the
    current state of the result is returned. *)
Definition interpolate_state_mutable_sequence (sms : loc) (times : Times)
    (h : list (Cell A M)) : list Warning * Result (Returned A) * list (Cell A M) :=
  match times with
  | OneTime t =>
      match interpolate_times_list sms [t] h with
      | (warnings, Raise e, h') => (warnings, Raise e, h')
      | (warnings, Ok new_sms, h') =>
          (warnings,
           (do states <- sms_states h' new_sms;
            do state <- getitem_last states;
            Ok (RState state)),
           h')
      end
  | TimeList ts =>
      match interpolate_times_list sms ts h with
      | (warnings, Raise e, h') => (warnings, Raise e, h')
      | (warnings, Ok new_sms, h') => (warnings, Ok (RSms new_sms), h')
      end
  end.

(** The states of the sequence returned for a list of times, read back
    from the store after the call. *)
Definition returned_states (sms : loc) (times : list datetime) (h : list (Cell A M))
  : Result (list (State A)) :=
  match interpolate_state_mutable_sequence sms (TimeList times) h with
  | (_, Ok (RSms new_sms), h') => sms_states h' new_sms
  | (_, Ok (RState _), _) => Raise TypeError
  | (_, Raise e, _) => Raise e
  end.

(** The warnings of a call. *)
Definition emitted_warnings (sms : loc) (times : Times) (h : list (Cell A M))
  : list Warning :=
  (interpolate_state_mutable_sequence sms times h).1.1.
End interpolate.

(** * Vocabulary of the properties *)

(** The sequence is time-ordered: timestamps never decrease along it. *)
Definition time_ordered {A} (states : list (State A)) : Prop :=
  Sorted Z.le (timestamp <$> states).

(** The later state of the sequence at time [t]. *)
Definition later_state_at {A} (states : list (State A)) (t : datetime) : option (State A) :=
  last (filter (λ s, timestamp s = t) states).

(** The first consecutive pair whose later timestamp is at or after [t]. *)
Definition first_pair_reaching {A} (states : list (State A)) (t : datetime)
  : option (State A * State A) :=
  head (filter (λ p, t ≤ timestamp p.2) (pairwise states)).

(** A series of calls of one cursor, in order. *)
Fixpoint call_all {A} (c : Cursor A) (ts : list datetime) : list (Result (State A)) :=
  match ts with
  | [] => []
  | t :: ts' => let '(r, c') := inner_fun c t in r :: call_all c' ts'
  end.

(** The number of [next(state_iter)] the loop of one call makes, the one
    that raises included. *)
Fixpoint inner_fun_nexts {A} (it : list (State A * State A)) (after : State A)
    (t : datetime) : nat :=
  if timestamp after <? t then
    match it with
    | [] => 1
    | (_, a) :: it' => S (inner_fun_nexts it' a t)
    end
  else 0.

(** The number of calls that raised. *)
Fixpoint raised {X} (rs : list (Result X)) : nat :=
  match rs with
  | [] => 0
  | Raise _ :: rs' => S (raised rs')
  | Ok _ :: rs' => raised rs'
  end.

(** The same over a series of calls. *)
Fixpoint call_all_nexts {A} (c : Cursor A) (ts : list datetime) : nat :=
  match ts with
  | [] => 0
  | t :: ts' =>
      (inner_fun_nexts (state_iter c) (state_after c) t
       + call_all_nexts (inner_fun c t).2 ts')%nat
  end.

(** The pairs before the current one are all behind [t]. *)
Definition cursor_inv {A} (pairs : list (State A * State A)) (t : datetime)
    (c : Cursor A) : Prop :=
  ∃ passed, pairs = passed ++ (state_before c, state_after c) :: state_iter c
            ∧ Forall (λ p, timestamp p.2 < t) passed.

(** The span of validity: between the timestamps of the first and of the
    last state of the sequence. *)
Definition in_span {A} (states : list (State A)) (t : datetime) : Prop :=
  ∃ s_first s_last, head states = Some s_first ∧ last states = Some s_last
                    ∧ timestamp s_first ≤ t ∧ t ≤ timestamp s_last.

Global Instance in_span_dec {A} (states : list (State A)) t : Decision (in_span states t).
Proof.
  unfold in_span.
  destruct (head states) as [s0|] eqn:Eh; [|right; naive_solver].
  destruct (last states) as [sn|] eqn:El; [|right; naive_solver].
  destruct (decide (timestamp s0 ≤ t ∧ t ≤ timestamp sn)) as [Hy|Hn].
  - left. naive_solver.
  - right. intros (? & ? & [= <-] & [= <-] & ?). naive_solver.
Defined.

(** Every state of the sequence has a vector of [D] components. *)
Definition uniform_dimension {A} (D : nat) (states : list (State A)) : Prop :=
  Forall (λ s, ndim s = D) states.

(** Row [k] of the matrix of known vectors. *)
Definition known_row {A} (d : list (datetime * State A)) (k : nat) : list float :=
  (λ c, nth k c float_zero) <$> (state_vector <$> dict_values d).

(** The lines 131-132 of the call: the times that are interpolated. *)
Definition times_to_interpolate_of {A} (states : list (State A)) (kept : list datetime)
  : list datetime :=
  sorted (list_to_set kept ∖ list_to_set (dict_keys (time_state_dict_of states))).

(** The matrix [interp_output] of a call that interpolates at the times
    [tti]: row [k] is what [np.interp] gives for all of [tti] on row [k] of
    the known vectors. *)
Definition interp_output_of `{Platform} {A} (d : list (datetime * State A)) (D : nat)
    (tti : list datetime) : list (list float) :=
  (λ k, np_interp_values (datetime_timestamp <$> tti) (datetime_timestamp <$> dict_keys d)
          (known_row d k)) <$> seq 0 D.

(** The place of [t] in a list of times. *)
Definition index_of (t : datetime) (l : list datetime) : option nat :=
  fst <$> list_find (λ x, x = t) l.

(** The vector [np.interp] gives at time [t] in a call that interpolates
    at the times [tti]: the column of [interp_output] at the place of [t]. *)
Definition interpolated_vector `{Platform} {A} (d : list (datetime * State A)) (D : nat)
    (tti : list datetime) (t : datetime) : list float :=
  match index_of t tti with
  | Some i => matrix_column (interp_output_of d D tti) i
  | None => []
  end.

(** The state the call gives for a time [t] among the in-span times [kept]
    of the request: the later state of the sequence at [t] when there is
    one, and otherwise the clone of the state the cursor finds, at time [t]
    and with the interpolated vector. *)
Definition result_state `{Platform} {A} (states : list (State A)) (D : nat)
    (kept : list datetime) (t : datetime) : option (State A) :=
  match later_state_at states t with
  | Some s => Some s
  | None =>
      (λ p : State A * State A,
         from_state p.1 t
           (interpolated_vector (time_state_dict_of states) D
              (times_to_interpolate_of states kept) t))
        <$> first_pair_reaching states t
  end.

(** The warning of a call, if any. *)
Definition expected_warnings {A} (states : list (State A)) (times : list datetime)
  : list Warning :=
  if decide (Forall (in_span states) times) then []
  else match head states, last states with
       | Some s_first, Some s_last =>
           [OutsideTimeRange (timestamp s_first) (timestamp s_last)
              (list_to_set times ∖ list_to_set (filter (in_span states) times))]
       | _, _ => []
       end.

(** The cells the call adds at the end of the store: the copy of the
    sequence object, the empty list of metadatas when the object has the
    attribute, and the new list of states when the call succeeds. *)
Definition added_cells {A M} (n : nat) (o : SmsObject) (r : Result (list (State A)))
  : list (Cell A M) :=
  match attr_metadatas o, r with
  | Some _, Ok out =>
      [CSms (mkSms (n + 2) (Some (n + 1)%nat)); CMetadatas []; CStates out]
  | Some _, Raise _ => [CSms (mkSms (attr_states o) (Some (n + 1)%nat)); CMetadatas []]
  | None, Ok out => [CSms (mkSms (n + 1) None); CStates out]
  | None, Raise _ => [CSms o]
  end.






(** The elements of a list, each once, in the order of first occurrence. *)
Definition first_occurrences (l : list Z) : list Z := reverse (remove_dups (reverse l)).


(** The entry of the dictionary with the greatest key below [t]. *)
Definition timeline_predecessor {A} (d : list (datetime * State A)) (t : datetime)
    (e : datetime * State A) : Prop :=
  e ∈ d ∧ e.1 < t ∧ ∀ k, k ∈ dict_keys d → k < t → k ≤ e.1.

(** ** Data for the examples *)

(** The scenario of the specification: states at 0 and 10. *)
Definition ex_a : State nat := mkState 0 [float_of_Z 0; float_of_Z 0] 100%nat.
Definition ex_b : State nat := mkState 10 [float_of_Z 10; float_of_Z 20] 200%nat.
Definition ex_store : list (Cell nat nat) :=
  [CStates [ex_a; ex_b]; CMetadatas [1%nat; 2%nat]; CSms (mkSms 0 (Some 1%nat))].

(** A sequence that is not time-ordered: timestamps 0, 10, 2, 5. *)
Definition ex_u0 : State nat := mkState 0 [float_of_Z 0] 0%nat.
Definition ex_u1 : State nat := mkState 10 [float_of_Z 10] 1%nat.
Definition ex_u2 : State nat := mkState 2 [float_of_Z 0] 2%nat.
Definition ex_u3 : State nat := mkState 5 [float_of_Z 50] 3%nat.
Definition ex_unordered : list (State nat) := [ex_u0; ex_u1; ex_u2; ex_u3].
Definition ex_store_unordered : list (Cell nat nat) :=
  [CStates ex_unordered; CSms (mkSms 0 None)].




(** A sequence whose middle timestamp is outside the span of its ends. *)
Definition ex_late : list (State nat) :=
  [mkState 1 [float_of_Z 1] 0%nat; mkState 5 [float_of_Z 5] 1%nat;
   mkState 3 [float_of_Z 3] 2%nat].
Definition ex_store_late : list (Cell nat nat) := [CStates ex_late; CSms (mkSms 0 None)].

(** The states returned at the places of [t] are clones of the state of
    the entry [e]: its attributes, the time [t] and the vector [v]. *)
Definition cloned_at {A} (kept : list datetime) (out : list (State A)) (t : datetime)
    (e : datetime * State A) (v : list float) : Prop :=
  ∀ i, kept !! i = Some t →
    ∃ s, out !! i = Some s ∧ s = from_state e.2 t v
         ∧ attributes s = attributes e.2 ∧ timestamp s = t ∧ state_vector s = v.

(** What is asked of the calls [ts] made in order on the cursor [c] of the
    sequence, [last_timestamp] being the last timestamp of the timeline. *)
Definition predecessor_calls {A} (last_timestamp : datetime) (states : list (State A))
    (c : Cursor A) (ts : list datetime) : Prop :=
  ∀ i t, ts !! i = Some t →
    (t ≤ last_timestamp →
     ∃ p, first_pair_reaching states t = Some p ∧ call_all c ts !! i = Some (Ok p.1))
    ∧ (last_timestamp < t → call_all c ts !! i = Some (Raise StopIteration)).

Definition ex_zigzag : list (State nat) :=
  [mkState 10 [] 0%nat; mkState 0 [] 1%nat; mkState 6 [] 2%nat; mkState 5 [] 3%nat].

(** The timestamps of aware datetimes in UTC. *)
Global Instance aware_utc : Platform | 100 := {| datetime_timestamp := utc_timestamp |}.

(** * Properties *)

Example time_range_0_10_3 : time_range 0 10 3 = Ok [0; 3; 6; 9].
Proof. by vm_compute. Qed.

Example time_range_0_9_3 : time_range 0 9 3 = Ok [0; 3; 6; 9].
Proof. by vm_compute. Qed.

Example time_range_1_0_3 : time_range 1 0 3 = Ok [1].
Proof. by vm_compute. Qed.

(** The number of steps comes from a float: here the quotient rounds up to
    1 and a time after the end is yielded. *)
Example time_range_past_the_end : time_range 0 (2 ^ 55 - 1) (2 ^ 55) = Ok [0; 2 ^ 55].
Proof. by vm_compute. Qed.

(** ** [time_range] *)

Lemma range_lookup (n : Z) (k : nat) :
  (Z.of_nat k < n) → range n !! k = Some (Z.of_nat k).
Proof.
  intros Hk. unfold range. rewrite list_lookup_fmap.
  rewrite lookup_seq_lt by lia. done.
Qed.

Lemma range_length (n : Z) : length (range n) = Z.to_nat n.
Proof. unfold range. by rewrite length_fmap, length_seq. Qed.

(** ** Dictionaries *)

Section dict_facts.
Context {V : Type}.
Implicit Types (d : list (datetime * V)) (k : datetime) (v : V).

Lemma dict_get_set_eq d k v : dict_get (dict_set d k v) k = Some v.
Proof.
  induction d as [|[k' v'] d IH]; simpl.
  - by rewrite decide_True.
  - destruct (decide (k' = k)) as [->|Hne]; simpl.
    + by rewrite decide_True.
    + by rewrite decide_False.
Qed.

Lemma dict_get_set_ne d k k' v : k ≠ k' → dict_get (dict_set d k v) k' = dict_get d k'.
Proof.
  intros Hne. induction d as [|[k0 v0] d IH]; simpl.
  - by rewrite decide_False.
  - destruct (decide (k0 = k)) as [->|Hne0]; simpl.
    + by rewrite !decide_False.
    + by rewrite IH.
Qed.

Lemma dict_get_None d k : dict_get d k = None ↔ k ∉ dict_keys d.
Proof.
  unfold dict_keys. induction d as [|[k' v'] d IH]; simpl.
  - split; [intros _; apply not_elem_of_nil | done].
  - rewrite not_elem_of_cons. destruct (decide (k' = k)) as [->|Hne].
    + split; [done | by intros []].
    + rewrite IH. naive_solver.
Qed.

Lemma dict_get_Some_keys d k v : dict_get d k = Some v → k ∈ dict_keys d.
Proof.
  intros Hget. destruct (decide (k ∈ dict_keys d)) as [|Hn]; [done|].
  apply dict_get_None in Hn. congruence.
Qed.

Lemma dict_get_is_Some d k : k ∈ dict_keys d → is_Some (dict_get d k).
Proof.
  intros Hin. destruct (dict_get d k) eqn:E; [by eexists|].
  by apply dict_get_None in E.
Qed.

Lemma dict_get_elem_of d k v : dict_get d k = Some v → (k, v) ∈ d.
Proof.
  induction d as [|[k' v'] d IH]; simpl; [done|].
  destruct (decide (k' = k)) as [->|Hne].
  - intros [= ->]. apply list_elem_of_here.
  - intros H. apply list_elem_of_further. auto.
Qed.

Lemma dict_set_present d k v : k ∈ dict_keys d → dict_keys (dict_set d k v) = dict_keys d.
Proof.
  unfold dict_keys. induction d as [|[k' v'] d IH]; simpl.
  - by intros ?%elem_of_nil.
  - intros Hin. destruct (decide (k' = k)) as [->|Hne]; simpl; [done|].
    f_equal. apply IH. apply elem_of_cons in Hin as [|]; [congruence | done].
Qed.

Lemma dict_set_absent d k v : k ∉ dict_keys d → dict_set d k v = d ++ [(k, v)].
Proof.
  unfold dict_keys. induction d as [|[k' v'] d IH]; simpl; [done|].
  rewrite not_elem_of_cons. intros [Hne Hnin].
  rewrite decide_False by done. by rewrite IH.
Qed.

Lemma dict_keys_app d d' : dict_keys (d ++ d') = dict_keys d ++ dict_keys d'.
Proof. unfold dict_keys. apply fmap_app. Qed.

Lemma dict_set_keys_elem d k k' v :
  k' ∈ dict_keys (dict_set d k v) ↔ k' = k ∨ k' ∈ dict_keys d.
Proof.
  destruct (decide (k ∈ dict_keys d)) as [Hin|Hnin].
  - rewrite dict_set_present by done. naive_solver.
  - rewrite dict_set_absent, dict_keys_app by done.
    rewrite elem_of_app. unfold dict_keys at 2. simpl. rewrite list_elem_of_singleton.
    naive_solver.
Qed.
End dict_facts.

(** ** The dictionary of line 109 *)

Section time_state_dict.
Context {A : Type}.
Implicit Types (states : list (State A)) (s : State A) (t : datetime).

Lemma time_state_dict_of_snoc states s :
  time_state_dict_of (states ++ [s])
  = dict_set (time_state_dict_of states) (timestamp s) s.
Proof. unfold time_state_dict_of. by rewrite foldl_snoc. Qed.

Lemma time_state_dict_get states t :
  dict_get (time_state_dict_of states) t = later_state_at states t.
Proof.
  unfold later_state_at.
  induction states as [|s states IH] using rev_ind; [done|].
  rewrite time_state_dict_of_snoc, filter_app.
  destruct (decide (timestamp s = t)) as [<-|Hne].
  - rewrite dict_get_set_eq. rewrite filter_cons_True by done.
    rewrite filter_nil. by rewrite last_snoc.
  - rewrite dict_get_set_ne by done.
    rewrite filter_cons_False by done. rewrite filter_nil, app_nil_r. done.
Qed.

Lemma time_state_dict_keys_elem states t :
  t ∈ dict_keys (time_state_dict_of states) ↔ t ∈ timestamp <$> states.
Proof.
  induction states as [|s states IH] using rev_ind.
  - done.
  - rewrite time_state_dict_of_snoc, dict_set_keys_elem, IH, fmap_app, elem_of_app.
    simpl. rewrite list_elem_of_singleton. naive_solver.
Qed.

Lemma time_state_dict_keys_NoDup states :
  NoDup (dict_keys (time_state_dict_of states)).
Proof.
  induction states as [|s states IH] using rev_ind; [constructor|].
  rewrite time_state_dict_of_snoc.
  destruct (decide (timestamp s ∈ dict_keys (time_state_dict_of states))) as [Hin|Hnin].
  - by rewrite dict_set_present.
  - rewrite dict_set_absent, dict_keys_app by done.
    apply NoDup_app. split_and!; [done | | apply NoDup_singleton].
    intros x Hx. unfold dict_keys. simpl. rewrite list_elem_of_singleton.
    intros ->. done.
Qed.

Lemma later_state_at_elem states t s :
  later_state_at states t = Some s → s ∈ states ∧ timestamp s = t.
Proof.
  unfold later_state_at. intros Hl.
  assert (s ∈ filter (λ s, timestamp s = t) states) as Hin.
  { apply last_Some in Hl as [l' ->]. apply elem_of_app. right. apply list_elem_of_here. }
  by apply list_elem_of_filter in Hin as [? ?].
Qed.

Lemma time_state_dict_entry states t s :
  (t, s) ∈ time_state_dict_of states → later_state_at states t = Some s.
Proof.
  rewrite <- time_state_dict_get.
  pose proof (time_state_dict_keys_NoDup states) as Hnd. revert Hnd.
  generalize (time_state_dict_of states). intros d. unfold dict_keys.
  induction d as [|[k v] d IH]; simpl.
  - by intros _ ?%elem_of_nil.
  - intros Hnd Hin. apply NoDup_cons in Hnd as [Hk Hnd].
    apply elem_of_cons in Hin as [[= -> ->]|Hin].
    + by rewrite decide_True.
    + rewrite decide_False; [by apply IH|].
      intros ->. apply Hk. apply list_elem_of_fmap. by exists (t, s).
Qed.

Lemma StronglySorted_snoc_lt (l : list Z) (x : Z) :
  StronglySorted Z.lt l → Forall (λ y, y < x) l → StronglySorted Z.lt (l ++ [x]).
Proof.
  intros Hl Hall. apply StronglySorted_app. split_and!; [|done|repeat constructor].
  intros x1 x2 H1 ->%list_elem_of_singleton.
  rewrite Forall_forall in Hall. auto.
Qed.

Lemma time_ordered_strong states :
  time_ordered states → StronglySorted Z.le (timestamp <$> states).
Proof. apply Sorted_StronglySorted. intros ???; lia. Qed.

Lemma time_ordered_snoc states s :
  time_ordered (states ++ [s]) →
  time_ordered states ∧ Forall (λ s', timestamp s' ≤ timestamp s) states.
Proof.
  intros Hs%time_ordered_strong. rewrite fmap_app in Hs.
  apply StronglySorted_app in Hs as (Hle & Hl & _).
  split; [by apply StronglySorted_Sorted|].
  apply Forall_forall. intros s' Hs'. apply Hle.
  - apply list_elem_of_fmap. eauto.
  - apply list_elem_of_here.
Qed.

(** On a time-ordered sequence the keys come out strictly ascending. *)
Lemma time_state_dict_keys_sorted states :
  time_ordered states → StronglySorted Z.lt (dict_keys (time_state_dict_of states)).
Proof.
  induction states as [|s states IH] using rev_ind; intros Hord.
  - constructor.
  - apply time_ordered_snoc in Hord as [Hord Hall].
    rewrite time_state_dict_of_snoc.
    destruct (decide (timestamp s ∈ dict_keys (time_state_dict_of states))) as [Hin|Hnin].
    + rewrite dict_set_present by done. auto.
    + rewrite dict_set_absent, dict_keys_app by done.
      apply StronglySorted_snoc_lt; [auto|].
      apply Forall_forall. intros k Hk.
      assert (k ≠ timestamp s) by (intros ->; by apply Hnin).
      rewrite time_state_dict_keys_elem, list_elem_of_fmap in Hk.
      destruct Hk as (s' & -> & Hs').
      rewrite Forall_forall in Hall. specialize (Hall _ Hs'). simpl in *. lia.
Qed.
End time_state_dict.

(** ** The predecessor cursor *)

Section cursor.
Context {A : Type}.
Implicit Types (states : list (State A)) (c : Cursor A) (t : datetime).
Implicit Types (p : State A * State A) (pairs : list (State A * State A)).

Lemma filter_behind pairs t :
  Forall (λ p, timestamp p.2 < t) pairs →
  filter (λ p, t ≤ timestamp p.2) pairs = [].
Proof.
  induction 1 as [|p pairs Hp _ IH]; [done|].
  rewrite filter_cons_False by (simpl in *; lia). done.
Qed.

Lemma inner_fun_loop_spec pairs passed it b a t :
  pairs = passed ++ (b, a) :: it →
  Forall (λ p, timestamp p.2 < t) passed →
  let '(r, c') := inner_fun_loop it b a t in
  r = match head (filter (λ p, t ≤ timestamp p.2) pairs) with
      | Some p => Ok p.1
      | None => Raise StopIteration
      end
  ∧ cursor_inv pairs t c'.
Proof.
  revert passed b a. induction it as [|[b' a'] it IH]; intros passed b a -> Hpassed.
  - simpl. rewrite filter_app, filter_behind, app_nil_l by done.
    destruct (Z.ltb_spec (timestamp a) t) as [Hlt|Hge].
    + rewrite filter_cons_False by (simpl; lia). split; [done|].
      exists passed. done.
    + rewrite filter_cons_True by (simpl; lia). split; [done|].
      exists passed. done.
  - simpl. destruct (Z.ltb_spec (timestamp a) t) as [Hlt|Hge].
    + specialize (IH (passed ++ [(b, a)]) b' a').
      rewrite <- app_assoc in IH. simpl in IH.
      apply IH; [done|]. apply Forall_app. split; [done|]. by constructor.
    + rewrite filter_app, filter_behind, app_nil_l by done.
      rewrite filter_cons_True by (simpl; lia). split; [done|].
      exists passed. done.
Qed.

Lemma cursor_inv_mono pairs t t' c : t ≤ t' → cursor_inv pairs t c → cursor_inv pairs t' c.
Proof.
  intros Hle (passed & Heq & Hall). exists passed. split; [done|].
  eapply Forall_impl; [done|]. intros p Hp. simpl in *. lia.
Qed.

Lemma inner_fun_spec pairs c t :
  cursor_inv pairs t c →
  (inner_fun c t).1 = match head (filter (λ p, t ≤ timestamp p.2) pairs) with
                      | Some p => Ok p.1
                      | None => Raise StopIteration
                      end
  ∧ cursor_inv pairs t (inner_fun c t).2.
Proof.
  intros (passed & Heq & Hall). unfold inner_fun.
  pose proof (inner_fun_loop_spec pairs passed _ _ _ t Heq Hall) as H.
  by destruct (inner_fun_loop _ _ _ _).
Qed.

Lemma _get_previous_state_inv states c t :
  _get_previous_state states = Ok c → cursor_inv (pairwise states) t c.
Proof.
  unfold _get_previous_state. destruct (pairwise states) as [|[b a] rest]; [done|].
  intros [= <-]. exists []. done.
Qed.

Lemma pairwise_length {X} (l : list X) : length (pairwise l) = (length l - 1)%nat.
Proof.
  unfold pairwise. rewrite length_zip_with. destruct l as [|x l]; cbn [length tail]; lia.
Qed.

Lemma _get_previous_state_ok states :
  (2 ≤ length states)%nat → ∃ c, _get_previous_state states = Ok c.
Proof.
  intros Hlen. unfold _get_previous_state.
  pose proof (pairwise_length states) as Hp.
  destruct (pairwise states) as [|[b a] rest]; [simpl in Hp; lia|]. eauto.
Qed.

(** Called with times that never decrease, the cursor answers each call
    as a fresh search from the start of the pairs would. *)
Lemma call_all_spec states c ts t0 :
  cursor_inv (pairwise states) t0 c →
  Sorted Z.le (t0 :: ts) →
  call_all c ts
  = (λ t, match first_pair_reaching states t with
          | Some p => Ok p.1
          | None => Raise StopIteration
          end) <$> ts.
Proof.
  revert c t0. induction ts as [|t ts IH]; intros c t0 Hinv Hsorted; [done|].
  apply Sorted_inv in Hsorted as [Hsorted Hhd]. apply HdRel_inv in Hhd.
  simpl. pose proof (inner_fun_spec _ c t (cursor_inv_mono _ _ _ _ Hhd Hinv)) as [Hr Hc].
  destruct (inner_fun c t) as [r c']. simpl in *. subst r.
  f_equal. by apply (IH c' t).
Qed.

(** The iterator only moves forward: a call makes as many [next] as it
    takes pairs from the iterator, and one more when it raises. *)
Lemma inner_fun_nexts_eq (it : list (State A * State A)) (b a : State A) t :
  (inner_fun_nexts it a t + length (state_iter (inner_fun_loop it b a t).2)
   = length it + raised [(inner_fun_loop it b a t).1])%nat.
Proof.
  revert b a. induction it as [|[b' a'] it IH]; intros b a; simpl.
  - by destruct (timestamp a <? t).
  - destruct (timestamp a <? t); simpl; [|lia].
    specialize (IH b' a'). simpl in IH. lia.
Qed.

Lemma call_all_nexts_eq c ts :
  (call_all_nexts c ts ≤ length (state_iter c) + raised (call_all c ts))%nat.
Proof.
  revert c. induction ts as [|t ts IH]; intros c; simpl; [lia|].
  specialize (IH (inner_fun c t).2).
  pose proof (inner_fun_nexts_eq (state_iter c) (state_before c) (state_after c) t) as H.
  unfold inner_fun in *. destruct (inner_fun_loop _ _ _ _) as [r c']. simpl in *.
  destruct r; simpl in *; lia.
Qed.

Lemma raised_le {X} (rs : list (Result X)) : (raised rs ≤ length rs)%nat.
Proof. induction rs as [|[] rs IH]; simpl; lia. Qed.

Lemma call_all_length c ts : length (call_all c ts) = length ts.
Proof.
  revert c. induction ts as [|t ts IH]; intros c; simpl; [done|].
  destruct (inner_fun c t). simpl. by rewrite IH.
Qed.

(** Over all the calls made on one cursor, whatever the times, [next] is
    called at most once per pair of the sequence and once more per call
    that raises. *)
Lemma cursor_total_nexts states c ts :
  _get_previous_state states = Ok c →
  (call_all_nexts c ts + 2 ≤ length states + raised (call_all c ts))%nat
  ∧ (call_all_nexts c ts + 2 ≤ length states + length ts)%nat.
Proof.
  intros Hc. pose proof (call_all_nexts_eq c ts) as Hn.
  pose proof (raised_le (call_all c ts)) as Hr. rewrite call_all_length in Hr.
  unfold _get_previous_state in Hc. pose proof (pairwise_length states) as Hp.
  destruct (pairwise states) as [|[b a] rest]; [done|].
  injection Hc as <-. simpl in *. lia.
Qed.
End cursor.

(** ** Clipping the requested times (lines 112-129) *)

Lemma foldl_max_spec (l : list Z) (x : Z) :
  foldl Z.max x l ∈ x :: l ∧ Forall (λ y, y ≤ foldl Z.max x l) (x :: l).
Proof.
  revert x. induction l as [|y l IH]; intros x; simpl.
  - split; [apply list_elem_of_here | repeat constructor; lia].
  - destruct (IH (Z.max x y)) as [Hin Hall].
    apply Forall_cons in Hall as [Hxy Hall]. split.
    + apply elem_of_cons in Hin as [Heq|Hin].
      * rewrite Heq. destruct (Z.max_spec x y) as [[_ ->]|[_ ->]].
        -- apply list_elem_of_further, list_elem_of_here.
        -- apply list_elem_of_here.
      * by do 2 apply list_elem_of_further.
    + repeat constructor; [lia | lia | done].
Qed.

Lemma foldl_min_spec (l : list Z) (x : Z) :
  foldl Z.min x l ∈ x :: l ∧ Forall (λ y, foldl Z.min x l ≤ y) (x :: l).
Proof.
  revert x. induction l as [|y l IH]; intros x; simpl.
  - split; [apply list_elem_of_here | repeat constructor; lia].
  - destruct (IH (Z.min x y)) as [Hin Hall].
    apply Forall_cons in Hall as [Hxy Hall]. split.
    + apply elem_of_cons in Hin as [Heq|Hin].
      * rewrite Heq. destruct (Z.min_spec x y) as [[_ ->]|[_ ->]].
        -- apply list_elem_of_here.
        -- apply list_elem_of_further, list_elem_of_here.
      * by do 2 apply list_elem_of_further.
    + repeat constructor; [lia | lia | done].
Qed.

Section filter_times.
Context {A : Type}.
Implicit Types (states : list (State A)) (times : list datetime).

Lemma in_span_iff states s_first s_last t :
  head states = Some s_first → last states = Some s_last →
  in_span states t ↔ timestamp s_first ≤ t ∧ t ≤ timestamp s_last.
Proof. intros Hh Hl. unfold in_span. rewrite Hh, Hl. naive_solver. Qed.

Lemma filter_in_span states s_first s_last times :
  head states = Some s_first → last states = Some s_last →
  filter (λ time, timestamp s_first ≤ time ∧ time ≤ timestamp s_last) times
  = filter (in_span states) times.
Proof.
  intros Hh Hl. apply list_filter_iff. intros t.
  by rewrite (in_span_iff _ _ _ _ Hh Hl).
Qed.

Lemma filter_all {X} (P : X → Prop) `{!∀ x, Decision (P x)} (l : list X) :
  Forall P l → filter P l = l.
Proof.
  induction 1 as [|x l Hx _ IH]; [done|].
  rewrite filter_cons_True by done. by rewrite IH.
Qed.

Lemma outside_test states s_first s_last times t0 times' :
  head states = Some s_first → last states = Some s_last →
  times = t0 :: times' →
  (timestamp s_last <? foldl Z.max t0 times')
  || (foldl Z.min t0 times' <? timestamp s_first) = false
  ↔ Forall (in_span states) times.
Proof.
  intros Hh Hl ->.
  destruct (foldl_max_spec times' t0) as [Hmax_in Hmax].
  destruct (foldl_min_spec times' t0) as [Hmin_in Hmin].
  rewrite orb_false_iff, !Z.ltb_ge. rewrite Forall_forall in Hmax, Hmin.
  split.
  - intros [H1 H2]. apply Forall_forall. intros t Ht.
    apply (in_span_iff _ _ _ _ Hh Hl).
    specialize (Hmax _ Ht). specialize (Hmin _ Ht). simpl in *. lia.
  - intros Hall. rewrite Forall_forall in Hall.
    apply Hall, (in_span_iff _ _ _ _ Hh Hl) in Hmax_in.
    apply Hall, (in_span_iff _ _ _ _ Hh Hl) in Hmin_in. lia.
Qed.

(** The three outcomes of the filter on a non-empty sequence and a
    non-empty list of times. *)
Lemma filter_times_spec states s_first s_last times :
  head states = Some s_first → last states = Some s_last → times ≠ [] →
  filter_times states times
  = if decide (Forall (in_span states) times) then Ok (times, [])
    else if decide (filter (in_span states) times = []) then Raise IndexError
    else Ok (filter (in_span states) times,
             [OutsideTimeRange (timestamp s_first) (timestamp s_last)
                (list_to_set times ∖ list_to_set (filter (in_span states) times))]).
Proof.
  intros Hh Hl Hne. unfold filter_times, getitem_last, getitem_first.
  rewrite Hl. destruct states as [|s states]; [done|]. simpl in Hh. injection Hh as ->.
  destruct times as [|t0 times']; [done|]. simpl bindR.
  pose proof (outside_test (s_first :: states) s_first s_last (t0 :: times') t0 times'
                eq_refl Hl eq_refl) as Htest.
  destruct (_ || _) eqn:E.
  - rewrite decide_False by (intros H; apply Htest in H; done).
    rewrite (filter_in_span (s_first :: states) s_first s_last) by done.
    destruct (decide (filter _ _ = [])) as [->|Hne']; [done|].
    destruct (filter _ _) eqn:E'; done.
  - rewrite decide_True by (by apply Htest). done.
Qed.

Lemma filter_times_empty states : filter_times states [] = Raise ValueError
                                  ∨ filter_times states [] = Raise IndexError.
Proof.
  unfold filter_times, getitem_last, getitem_first.
  destruct (last states) eqn:El; [|by right].
  destruct states; [done|]. by left.
Qed.
End filter_times.

(** ** The interpolation pass (lines 134-148) *)

Section interp_pass.
Lemma mapR_ok {X Y} (f : X → Result Y) (g : X → Y) (l : list X) :
  (∀ x, x ∈ l → f x = Ok (g x)) → mapR f l = Ok (g <$> l).
Proof.
  induction l as [|x l IH]; intros Hf; simpl; [done|].
  rewrite Hf by apply list_elem_of_here. simpl.
  rewrite IH; [done|]. intros y Hy. apply Hf. by apply list_elem_of_further.
Qed.

Lemma StateVectors_ok (D : nat) (columns : list (list float)) :
  Forall (λ c, length c = D) columns → StateVectors columns = Ok columns.
Proof.
  intros Hall. unfold StateVectors. destruct columns as [|c cs]; [done|].
  assert (forallb (λ c', (length c' =? length c)%nat) (c :: cs) = true) as ->; [|done].
  apply forallb_forall. intros c' Hc'%list_elem_of_In.
  rewrite Forall_forall in Hall.
  apply Nat.eqb_eq. rewrite (Hall c') by done.
  symmetry. apply Hall, list_elem_of_here.
Qed.

Lemma matrix_row_ok (D : nat) (m : list (list float)) (k : nat) :
  Forall (λ c, length c = D) m → (k < D)%nat →
  matrix_row m k = Ok ((λ c, nth k c float_zero) <$> m).
Proof.
  intros Hall Hk. unfold matrix_row. apply mapR_ok. intros c Hc.
  rewrite Forall_forall in Hall. specialize (Hall c Hc). simpl in Hall.
  destruct (c !! k) as [q|] eqn:E.
  - by rewrite (nth_lookup_Some _ _ _ _ E).
  - apply lookup_ge_None in E. lia.
Qed.

Lemma np_interp_ok (x xp fp : list float) :
  xp ≠ [] → length fp = length xp → np_interp x xp fp = Ok (np_interp_values x xp fp).
Proof.
  intros Hne Hlen. unfold np_interp. rewrite Hlen, Nat.eqb_refl. simpl.
  destruct xp; [done|]. done.
Qed.

Lemma interp_rows_ok (D : nat) (columns : list (list float)) (xs xp : list float) :
  Forall (λ c, length c = D) columns → xp ≠ [] → length xp = length columns →
  interp_rows D columns xs xp
  = Ok ((λ k, np_interp_values xs xp ((λ c, nth k c float_zero) <$> columns)) <$> seq 0 D).
Proof.
  intros Hall Hne Hlen. unfold interp_rows. apply mapR_ok.
  intros k Hk%elem_of_seq. rewrite (matrix_row_ok D) by (done || lia). simpl.
  apply np_interp_ok; [done|]. by rewrite length_fmap.
Qed.
End interp_pass.

(** ** Sorting the set of missing times (line 132) *)

Section sorted_facts.
Lemma elem_of_sorted (s : gset Z) (t : Z) : t ∈ sorted s ↔ t ∈ s.
Proof. unfold sorted. by rewrite merge_sort_Permutation, elem_of_elements. Qed.

Lemma NoDup_sorted (s : gset Z) : NoDup (sorted s).
Proof. unfold sorted. rewrite merge_sort_Permutation. apply NoDup_elements. Qed.

Lemma StronglySorted_le_lt (l : list Z) :
  StronglySorted Z.le l → NoDup l → StronglySorted Z.lt l.
Proof.
  induction 1 as [|x l Hl IH Hx]; intros Hnd; [constructor|].
  apply NoDup_cons in Hnd as [Hnin Hnd]. constructor; [auto|].
  apply Forall_forall. intros y Hy. rewrite Forall_forall in Hx.
  specialize (Hx y Hy). assert (x ≠ y) by (intros ->; done). lia.
Qed.

Lemma sorted_ascending (s : gset Z) : StronglySorted Z.lt (sorted s).
Proof.
  apply StronglySorted_le_lt; [|apply NoDup_sorted].
  unfold sorted. apply StronglySorted_merge_sort; [intros ???; lia|].
  intros x y. lia.
Qed.
End sorted_facts.

(** ** Filling in the missing times (lines 150-156) *)

Section synthesize.
Context {A : Type}.
Implicit Types (states : list (State A)) (d : list (datetime * State A)).
Implicit Types (c : Cursor A) (t : datetime) (tti : list datetime).

Lemma synthesize_spec states c (out : list (list float)) d (i : nat) tti t0 :
  cursor_inv (pairwise states) t0 c →
  Forall (λ t, t0 ≤ t) tti →
  StronglySorted Z.lt tti →
  (∀ t, t ∈ tti → is_Some (first_pair_reaching states t)) →
  ∃ d', synthesize c out d i tti = Ok d'
    ∧ (∀ t, t ∉ tti → dict_get d' t = dict_get d t)
    ∧ (∀ k t, tti !! k = Some t →
         ∃ p, first_pair_reaching states t = Some p
              ∧ dict_get d' t = Some (from_state p.1 t (matrix_column out (i + k)))).
Proof.
  revert c d i t0. induction tti as [|t tti IH]; intros c d i t0 Hinv Hge Hsorted Hsome.
  - exists d. split_and!; [done | done |]. intros k t. by rewrite lookup_nil.
  - apply Forall_cons in Hge as [Ht0 _].
    apply StronglySorted_inv in Hsorted as [Hsorted Hlt].
    simpl. pose proof (inner_fun_spec _ c t (cursor_inv_mono _ _ _ _ Ht0 Hinv)) as [Hr Hc].
    destruct (inner_fun c t) as [r c']. simpl in Hr, Hc.
    destruct (Hsome t (list_elem_of_here _ _)) as [p Hp].
    fold (first_pair_reaching states t) in Hr. rewrite Hp in Hr. subst r. simpl.
    destruct (IH c' (dict_set d t (from_state p.1 t (matrix_column out i))) (S i) t)
      as (d' & Hd' & Hother & Hnew).
    + done.
    + eapply Forall_impl; [done|]. intros; simpl in *; lia.
    + done.
    + intros t' Ht'. apply Hsome. by apply list_elem_of_further.
    + exists d'. split_and!; [done | |].
      * intros t' [Hne Hnin]%not_elem_of_cons.
        rewrite Hother by done. by rewrite dict_get_set_ne.
      * intros [|k] t'; simpl.
        -- intros [= <-]. exists p. split; [done|].
           rewrite Hother, dict_get_set_eq, Nat.add_0_r; [done|].
           intros Hin. rewrite Forall_forall in Hlt. specialize (Hlt _ Hin). lia.
        -- intros Hk. destruct (Hnew k t' Hk) as (p' & Hp' & Hget).
           exists p'. split; [done|]. rewrite Hget. do 3 f_equal. lia.
Qed.

Lemma pairwise_last states s_last :
  last states = Some s_last → (2 ≤ length states)%nat →
  ∃ b, (b, s_last) ∈ pairwise states.
Proof.
  induction states as [|x states IH]; [done|].
  destruct states as [|y states]; [simpl; lia|].
  intros Hl _. change (pairwise (x :: y :: states)) with ((x, y) :: pairwise (y :: states)).
  destruct states as [|z states].
  - simpl in Hl. injection Hl as <-. exists x. apply list_elem_of_here.
  - destruct IH as [b Hb]; [done | simpl; lia |].
    exists b. by apply list_elem_of_further.
Qed.

Lemma first_pair_reaching_is_Some states s_last t :
  last states = Some s_last → (2 ≤ length states)%nat → t ≤ timestamp s_last →
  is_Some (first_pair_reaching states t).
Proof.
  intros Hl Hlen Ht. destruct (pairwise_last _ _ Hl Hlen) as [b Hb].
  unfold first_pair_reaching.
  assert ((b, s_last) ∈ filter (λ p, t ≤ timestamp p.2) (pairwise states)) as Hin.
  { apply list_elem_of_filter. done. }
  destruct (filter _ _); [by apply elem_of_nil in Hin | by eexists].
Qed.

Lemma first_pair_reaching_elem states t p :
  first_pair_reaching states t = Some p →
  p ∈ pairwise states ∧ t ≤ timestamp p.2.
Proof.
  unfold first_pair_reaching. intros Hh.
  assert (p ∈ filter (λ p, t ≤ timestamp p.2) (pairwise states)) as Hin.
  { destruct (filter _ _); [done|]. injection Hh as ->. apply list_elem_of_here. }
  apply list_elem_of_filter in Hin. naive_solver.
Qed.
End synthesize.

(** ** The states of the result *)

Section result.
Context `{Platform} {A : Type}.
Implicit Types (states : list (State A)) (times : list datetime) (t : datetime).

Lemma index_of_lookup (l : list datetime) (k : nat) t :
  NoDup l → l !! k = Some t → index_of t l = Some k.
Proof.
  intros Hnd Hk. unfold index_of.
  assert (list_find (λ x, x = t) l = Some (k, t)) as ->; [|done].
  apply list_find_Some. split_and!; [done | done |].
  intros j y Hj Hlt ->. pose proof (NoDup_lookup _ _ _ _ Hnd Hj Hk). lia.
Qed.

Lemma mapR_Forall2 {X Y} (f : X → Result Y) (R : X → Y → Prop) (l : list X) :
  (∀ x, x ∈ l → ∃ y, f x = Ok y ∧ R x y) →
  ∃ ys, mapR f l = Ok ys ∧ Forall2 R l ys.
Proof.
  induction l as [|x l IH]; intros Hf; simpl.
  - exists []. split; [done | constructor].
  - destruct (Hf x (list_elem_of_here _ _)) as (y & -> & Hy).
    destruct IH as (ys & -> & Hys).
    { intros x' Hx'. apply Hf. by apply list_elem_of_further. }
    exists (y :: ys). split; [done | by constructor].
Qed.

Lemma head_keys states s_first :
  head states = Some s_first → timestamp s_first ∈ dict_keys (time_state_dict_of states).
Proof.
  intros Hh. apply time_state_dict_keys_elem. destruct states; [done|].
  injection Hh as ->. apply list_elem_of_here.
Qed.

Lemma dict_values_states states :
  Forall (λ s, s ∈ states) (dict_values (time_state_dict_of states)).
Proof.
  apply Forall_forall. intros s Hs. unfold dict_values in Hs.
  apply list_elem_of_fmap in Hs as ([t s'] & -> & Hin). simpl.
  by destruct (later_state_at_elem _ _ _ (time_state_dict_entry _ _ _ Hin)) as [? _].
Qed.

Lemma span_single (s : State A) t : in_span [s] t → t = timestamp s.
Proof. intros (? & ? & [= <-] & [= <-] & ? & ?). lia. Qed.

Lemma interpolate_missing_spec states s_first s_last D times :
  head states = Some s_first → last states = Some s_last →
  uniform_dimension D states →
  Forall (in_span states) times →
  ∃ d', interpolate_missing states (time_state_dict_of states) times = Ok d'
    ∧ (∀ t, t ∈ dict_keys (time_state_dict_of states) →
         dict_get d' t = dict_get (time_state_dict_of states) t)
    ∧ (∀ t, t ∈ times → t ∉ dict_keys (time_state_dict_of states) →
         ∃ p, first_pair_reaching states t = Some p
              ∧ dict_get d' t
                = Some (from_state p.1 t
                          (interpolated_vector (time_state_dict_of states) D
                             (times_to_interpolate_of states times) t))).
Proof.
  intros Hh Hl Hdim Hspan.
  unfold interpolate_missing, uniform_dimension, times_to_interpolate_of in *.
  set (d := time_state_dict_of states).
  set (tti := sorted (list_to_set times ∖ list_to_set (dict_keys d))).
  assert (∀ t, t ∈ tti ↔ t ∈ times ∧ t ∉ dict_keys d) as Htti.
  { intros t. unfold tti. rewrite elem_of_sorted, elem_of_difference.
    by rewrite !elem_of_list_to_set. }
  destruct (Nat.ltb_spec 0 (length tti)) as [Hpos|Hzero].
  - (* some time is missing *)
    assert (∃ t1, t1 ∈ tti) as [t1 Ht1].
    { destruct tti as [|t1 ?]; [simpl in Hpos; lia|]. exists t1. apply list_elem_of_here. }
    assert (Forall (λ c, length c = D) (state_vector <$> dict_values d)) as Hcols.
    { apply Forall_fmap. eapply Forall_impl; [apply dict_values_states|].
      intros s Hs. rewrite Forall_forall in Hdim. by apply Hdim. }
    rewrite (StateVectors_ok D) by done. simpl.
    unfold getitem_last. rewrite Hl. simpl.
    assert (ndim s_last = D) as ->.
    { rewrite Forall_forall in Hdim. apply Hdim.
      apply last_Some in Hl as [l' ->]. apply elem_of_app. right. apply list_elem_of_here. }
    rewrite interp_rows_ok; [simpl | done | |].
    2:{ pose proof (head_keys _ _ Hh) as Hk. fold d in Hk.
        destruct (dict_keys d); [by apply elem_of_nil in Hk | done]. }
    2:{ unfold dict_keys, dict_values. by rewrite !length_fmap. }
    assert (2 ≤ length states)%nat as Hlen.
    { destruct states as [|s0 [|s1 states']]; [done | | simpl; lia].
      apply Htti in Ht1 as [Hin Hnin]. rewrite Forall_forall in Hspan.
      apply Hspan, span_single in Hin. subst t1.
      exfalso. apply Hnin. by apply (head_keys [s0]). }
    destruct (_get_previous_state_ok _ Hlen) as [c Hc]. rewrite Hc. simpl.
    destruct (synthesize_spec states c (interp_output_of d D tti) d 0 tti (timestamp s_first))
      as (d' & Hd' & Hother & Hnew).
    + by apply _get_previous_state_inv.
    + apply Forall_forall. intros t [Hin _]%Htti. rewrite Forall_forall in Hspan.
      apply Hspan in Hin. apply (in_span_iff _ _ _ _ Hh Hl) in Hin. lia.
    + apply sorted_ascending.
    + intros t [Hin _]%Htti. rewrite Forall_forall in Hspan.
      apply Hspan in Hin. apply (in_span_iff _ _ _ _ Hh Hl) in Hin.
      apply (first_pair_reaching_is_Some _ s_last); [done | done | lia].
    + exists d'. split_and!; [done | |].
      * intros t Ht. apply Hother. rewrite Htti. naive_solver.
      * intros t Hin Hnin. assert (t ∈ tti) as Ht by (by apply Htti).
        apply list_elem_of_lookup in Ht as [k Hk].
        destruct (Hnew k t Hk) as (p & Hp & Hget). exists p. split; [done|].
        rewrite Hget. simpl. unfold interpolated_vector.
        by rewrite (index_of_lookup tti k t (NoDup_sorted _) Hk).
  - (* nothing to interpolate *)
    exists d. split_and!; [done | done |].
    intros t Hin Hnin. assert (t ∈ tti) as Ht by (by apply Htti).
    destruct tti; [by apply elem_of_nil in Ht | simpl in Hzero; lia].
Qed.

Lemma interpolate_states_spec states s_first s_last D times :
  head states = Some s_first → last states = Some s_last →
  uniform_dimension D states →
  filter (in_span states) times ≠ [] →
  ∃ out, interpolate_states states times = (expected_warnings states times, Ok out)
         ∧ Forall2 (λ t s, result_state states D (filter (in_span states) times) t = Some s)
             (filter (in_span states) times) out.
Proof.
  intros Hh Hl Hdim Hkept.
  assert (times ≠ []) as Hne by (by intros ->).
  unfold interpolate_states, expected_warnings.
  rewrite (filter_times_spec _ _ _ _ Hh Hl Hne), Hh, Hl.
  set (kept := filter (in_span states) times) in *.
  assert (Forall (in_span states) kept) as Hspan.
  { apply Forall_forall. intros t Ht. by apply list_elem_of_filter in Ht as [? _]. }
  destruct (interpolate_missing_spec _ _ _ D kept Hh Hl Hdim Hspan)
    as (d' & Hd' & Hold & Hnew).
  destruct (mapR_Forall2 (dict_getitem d') (λ t s, result_state states D kept t = Some s)
              kept)
    as (out & Hout & Hall).
  { intros t Ht. unfold dict_getitem, result_state.
    rewrite <- time_state_dict_get.
    destruct (decide (t ∈ dict_keys (time_state_dict_of states))) as [Hin|Hnin].
    - rewrite Hold by done. destruct (dict_get_is_Some _ _ Hin) as [s ->]. eauto.
    - destruct (Hnew t Ht Hnin) as (p & Hp & ->).
      apply dict_get_None in Hnin. rewrite Hnin, Hp. eauto. }
  destruct (decide (Forall (in_span states) times)) as [Hall_in|Hsome_out].
  - assert (kept = times) as Heq by (by apply filter_all).
    rewrite Heq in *. rewrite Hd'. simpl. rewrite Hout. eauto.
  - rewrite decide_False by done. rewrite Hd'. simpl. rewrite Hout. eauto.
Qed.

(** With no requested time in the span, the call raises [IndexError]. *)
Lemma interpolate_states_all_outside states times :
  states ≠ [] → times ≠ [] → filter (in_span states) times = [] →
  interpolate_states states times = ([], Raise IndexError).
Proof.
  intros Hs Hne Hkept.
  destruct (head states) as [s_first|] eqn:Hh; [|by destruct states].
  destruct (last states) as [s_last|] eqn:Hl; [|by apply last_None in Hl].
  unfold interpolate_states. rewrite (filter_times_spec _ _ _ _ Hh Hl Hne).
  rewrite decide_False.
  - by rewrite decide_True.
  - intros Hall. rewrite (filter_all (in_span states) times Hall) in Hkept. done.
Qed.
End result.

(** ** The call and the store *)

Section store.
Context `{Platform} {A M : Type}.
Implicit Types (h : list (Cell A M)) (sms : loc) (o : SmsObject).
Implicit Types (states : list (State A)) (times : list datetime).

Lemma get_states_app h h' r states :
  get_states h r = Ok states → get_states (h ++ h') r = Ok states.
Proof.
  unfold get_states. destruct (h !! r) as [c|] eqn:E; [|done].
  by rewrite (lookup_app_l_Some _ _ _ _ E).
Qed.

Lemma interpolate_times_list_spec sms o states times h :
  get_sms h sms = Ok o → get_states h (attr_states o) = Ok states →
  interpolate_times_list sms times h
  = ((interpolate_states states times).1,
     match (interpolate_states states times).2 with
     | Ok _ => Ok (length h)
     | Raise e => Raise e
     end,
     h ++ added_cells (length h) o (interpolate_states states times).2).
Proof.
  intros Ho Hs. unfold interpolate_times_list, added_cells, alloc. rewrite Ho.
  destruct (attr_metadatas o) as [m|] eqn:Em.
  - rewrite length_app. simpl length.
    rewrite <- app_assoc. simpl app.
    rewrite (insert_app_r_alt h _ (length h)) by lia. rewrite Nat.sub_diag. simpl.
    rewrite (get_states_app _ _ _ _ Hs).
    destruct (interpolate_states states times) as [ws [out|e]]; simpl; [|done].
    rewrite length_app. simpl length.
    rewrite <- app_assoc. simpl app.
    rewrite (insert_app_r_alt h _ (length h)) by lia. rewrite Nat.sub_diag. simpl.
    repeat f_equal; lia.
  - rewrite (get_states_app _ _ _ _ Hs).
    destruct (interpolate_states states times) as [ws [out|e]]; simpl; [|done].
    rewrite length_app. simpl length. rewrite Em.
    rewrite <- app_assoc. simpl app.
    rewrite (insert_app_r_alt h _ (length h)) by lia. rewrite Nat.sub_diag. simpl.
    done.
Qed.

Lemma sms_states_inv h sms states :
  sms_states h sms = Ok states →
  ∃ o, get_sms h sms = Ok o ∧ get_states h (attr_states o) = Ok states.
Proof.
  unfold sms_states. destruct (get_sms h sms) as [o|e]; [|done]. simpl. eauto.
Qed.

(** The sequence the call returns holds the states computed from the
    states of the input. *)
Lemma returned_states_spec sms states times h :
  sms_states h sms = Ok states →
  returned_states sms times h = (interpolate_states states times).2.
Proof.
  intros (o & Ho & Hs)%sms_states_inv.
  unfold returned_states, interpolate_state_mutable_sequence.
  rewrite (interpolate_times_list_spec _ _ _ _ _ Ho Hs).
  destruct (interpolate_states states times) as [ws [out|e]]; simpl; [|done].
  unfold sms_states, get_sms, get_states, added_cells.
  rewrite lookup_app_r, Nat.sub_diag by lia.
  destruct (attr_metadatas o); simpl.
  - rewrite lookup_app_r by lia.
    by replace (length h + 2 - length h)%nat with 2%nat by lia.
  - rewrite lookup_app_r by lia.
    by replace (length h + 1 - length h)%nat with 1%nat by lia.
Qed.

Lemma emitted_warnings_spec sms states times h :
  sms_states h sms = Ok states →
  emitted_warnings sms (TimeList times) h = (interpolate_states states times).1.
Proof.
  intros (o & Ho & Hs)%sms_states_inv.
  unfold emitted_warnings, interpolate_state_mutable_sequence.
  rewrite (interpolate_times_list_spec _ _ _ _ _ Ho Hs).
  by destruct (interpolate_states states times) as [ws [out|e]].
Qed.
End store.

(** ** Time-ordered sequences *)

Section ordered.
Context {A : Type}.
Implicit Types (states : list (State A)) (s : State A) (t : datetime).
Implicit Types (p : State A * State A).

Lemma head_filter_Some {X} (P : X → Prop) `{!∀ x, Decision (P x)} (l : list X) (x : X) :
  head (filter P l) = Some x →
  ∃ i, l !! i = Some x ∧ P x ∧ ∀ j y, l !! j = Some y → (j < i)%nat → ¬ P y.
Proof.
  induction l as [|y l IH]; [done|].
  destruct (decide (P y)) as [Hy|Hy].
  - rewrite filter_cons_True by done. intros [= ->].
    exists 0%nat. split_and!; [done | done | intros; lia].
  - rewrite filter_cons_False by done. intros (i & Hi & Hx & Hbefore)%IH.
    exists (S i). split_and!; [done | done |].
    intros [|j] y'; simpl; [by intros [= <-]|].
    intros Hj Hlt. apply (Hbefore j); [done | lia].
Qed.

Lemma filter_none {X} (P : X → Prop) `{!∀ x, Decision (P x)} (l : list X) :
  Forall (λ x, ¬ P x) l → filter P l = [].
Proof.
  induction 1 as [|x l Hx _ IH]; [done|]. by rewrite filter_cons_False.
Qed.

Lemma pairwise_lookup {X} (l : list X) (i : nat) (x y : X) :
  pairwise l !! i = Some (x, y) ↔ l !! i = Some x ∧ l !! S i = Some y.
Proof.
  unfold pairwise. rewrite lookup_zip_with_Some. rewrite <- lookup_tail. naive_solver.
Qed.

Lemma ordered_lookup states (i j : nat) s s' :
  time_ordered states → (i ≤ j)%nat → states !! i = Some s → states !! j = Some s' →
  timestamp s ≤ timestamp s'.
Proof.
  intros Hord%time_ordered_strong Hij Hi Hj.
  destruct (decide (i = j)) as [->|Hne]; [by simplify_eq|].
  rewrite <- (take_drop (S i) states), fmap_app in Hord.
  apply StronglySorted_app in Hord as (Hle & _ & _). apply Hle.
  - apply list_elem_of_fmap. exists s. split; [done|].
    apply elem_of_take. exists i. split; [done | lia].
  - apply list_elem_of_fmap. exists s'. split; [done|].
    apply list_elem_of_lookup. exists (j - S i)%nat. rewrite lookup_drop.
    by replace (S i + (j - S i))%nat with j by lia.
Qed.

(** Where the cursor stops on a time-ordered sequence, for a time of the
    span that is not a timestamp of the sequence. *)
Lemma first_pair_reaching_ordered states s_first t p :
  time_ordered states → head states = Some s_first → timestamp s_first ≤ t →
  t ∉ timestamp <$> states →
  first_pair_reaching states t = Some p →
  timestamp p.1 < t < timestamp p.2
  ∧ later_state_at states (timestamp p.1) = Some p.1
  ∧ (∀ s, s ∈ states → timestamp s ≤ timestamp p.1 ∨ timestamp p.2 ≤ timestamp s).
Proof.
  intros Hord Hh Hfirst Hnin Hp. unfold first_pair_reaching in Hp.
  apply head_filter_Some in Hp as (i & Hi & Hreach & Hbefore).
  destruct p as [b a]. apply pairwise_lookup in Hi as [Hb Ha]. simpl in *.
  assert (∀ s, s ∈ states → timestamp s ≠ t) as Hne.
  { intros s Hs <-. apply Hnin. apply list_elem_of_fmap. eauto. }
  assert (timestamp b < t) as Hbt.
  { pose proof (Hne b (list_elem_of_lookup_2 _ _ _ Hb)).
    destruct i as [|i].
    - rewrite head_lookup in Hh. simplify_eq. lia.
    - destruct (states !! i) as [x|] eqn:Hx.
      + specialize (Hbefore i (x, b)). simpl in Hbefore.
        rewrite pairwise_lookup in Hbefore. specialize (Hbefore (conj Hx Hb)). lia.
      + apply lookup_ge_None in Hx. apply lookup_lt_Some in Hb. lia. }
  assert (t < timestamp a) as Hta.
  { pose proof (Hne a (list_elem_of_lookup_2 _ _ _ Ha)). lia. }
  assert (∀ s, s ∈ states → timestamp s ≤ timestamp b ∨ timestamp a ≤ timestamp s) as Hsplit.
  { intros s [j Hj]%list_elem_of_lookup.
    destruct (decide (j ≤ i)%nat).
    - left. by apply (ordered_lookup states j i).
    - right. apply (ordered_lookup states (S i) j); [done | lia | done | done]. }
  split_and!; [lia | lia | | done].
  unfold later_state_at.
  rewrite <- (take_drop (S i) states), filter_app, (take_S_r _ _ _ Hb), filter_app.
  rewrite (filter_cons_True _ b) by done. rewrite filter_nil.
  assert (filter (λ s, timestamp s = timestamp b) (drop (S i) states) = []) as ->.
  { apply filter_none. apply Forall_forall.
    intros s [j Hj]%list_elem_of_lookup. rewrite lookup_drop in Hj.
    pose proof (ordered_lookup states (S i) (S i + j) a s Hord). simpl in *.
    intros Heq. specialize (H ltac:(lia) Ha Hj). lia. }
  by rewrite app_nil_r, last_snoc.
Qed.
End ordered.

(** ** [np.interp] between two neighbouring samples *)

Section float_order.


End float_order.

(** The search of [np.interp] on sample points around which the key
    compares as the index [j] says: whatever the guess, it finds [j]. *)

Section search.
Variables (key : float) (arr : list float) (j : Z).
Hypothesis Hj : 0 ≤ j < Z.of_nat (length arr).
Hypothesis Hlt : ∀ g, 0 ≤ g < Z.of_nat (length arr) →
  float_lt key (arr_get arr g) = (j <? g).
Hypothesis Hle : ∀ g, 0 ≤ g < Z.of_nat (length arr) →
  float_le (arr_get arr g) key = (g <=? j).
Hypothesis Hlast : float_lt (arr_get arr (Z.of_nat (length arr) - 1)) key = false.



End search.

Section interp_loop_facts.

Lemma interp_loop_length (dx dy x : list float) (j : Z) :
  length (interp_loop dx dy x j) = length x.
Proof.
  revert j. induction x as [|x_val x IH]; intros j; simpl; [done|].
  destruct (float_isnan x_val); simpl; by rewrite IH.
Qed.

Lemma np_interp_values_length (x xp fp : list float) :
  length (np_interp_values x xp fp) = length x.
Proof.
  unfold np_interp_values. destruct (length xp =? 1)%nat.
  - by rewrite length_fmap.
  - apply interp_loop_length.
Qed.



End interp_loop_facts.

(** ** The timeline *)

Section timeline.
Context `{Platform} {A M : Type}.
Implicit Types (states : list (State A)) (s : State A) (t : datetime).
Implicit Types (d : list (datetime * State A)) (h : list (Cell A M)).

Lemma returned_states_ok h (sms : loc) states D (times : list datetime) :
  sms_states h sms = Ok states → uniform_dimension D states →
  Exists (in_span states) times →
  ∃ out, returned_states sms times h = Ok out
         ∧ Forall2 (λ t s, result_state states D (filter (in_span states) times) t = Some s)
             (filter (in_span states) times) out.
Proof.
  intros Hs Hdim Hex. rewrite (returned_states_spec _ _ _ _ Hs).
  apply Exists_exists in Hex as (t & Ht & Hspan).
  assert (t ∈ filter (in_span states) times) as Hkept by (by apply list_elem_of_filter).
  destruct Hspan as (s_first & s_last & Hh & Hl & _).
  destruct (interpolate_states_spec states s_first s_last D times Hh Hl Hdim)
    as (out & Heq & Hall).
  { intros Hnil. rewrite Hnil in Hkept. by apply elem_of_nil in Hkept. }
  exists out. by rewrite Heq.
Qed.

Lemma result_state_timestamp states D (kept : list datetime) t s :
  result_state states D kept t = Some s → timestamp s = t.
Proof.
  unfold result_state. destruct (later_state_at states t) as [s'|] eqn:E.
  - intros [= <-]. by apply later_state_at_elem in E as [_ ?].
  - destruct (first_pair_reaching states t); [|done]. by intros [= <-].
Qed.

Lemma ordered_first_le states s_first s :
  time_ordered states → head states = Some s_first → s ∈ states →
  timestamp s_first ≤ timestamp s.
Proof.
  intros Hord Hh [i Hi]%list_elem_of_lookup. rewrite head_lookup in Hh.
  apply (ordered_lookup states 0 i); [done | lia | done | done].
Qed.

Lemma ordered_last_ge states s_last s :
  time_ordered states → last states = Some s_last → s ∈ states →
  timestamp s ≤ timestamp s_last.
Proof.
  intros Hord Hl [i Hi]%list_elem_of_lookup. rewrite last_lookup in Hl.
  apply (ordered_lookup states i (pred (length states))); [done | | done | done].
  apply lookup_lt_Some in Hi. lia.
Qed.

(** On a time-ordered sequence every timestamp of the sequence is in its
    span. *)
Lemma present_in_span states t :
  time_ordered states → t ∈ timestamp <$> states → in_span states t.
Proof.
  intros Hord (s & -> & Hs)%list_elem_of_fmap.
  destruct (head states) as [s_first|] eqn:Hh; [|destruct states; [by apply elem_of_nil in Hs|done]].
  destruct (last states) as [s_last|] eqn:Hl.
  2:{ apply last_None in Hl. subst. by apply elem_of_nil in Hs. }
  exists s_first, s_last. split_and!; [done | done | |].
  - by apply (ordered_first_le states).
  - by apply (ordered_last_ge states).
Qed.

Lemma dict_entry_key_elem d (e : datetime * State A) : e ∈ d → e.1 ∈ dict_keys d.
Proof. intros He. unfold dict_keys. apply list_elem_of_fmap. eauto. Qed.


(** On a time-ordered sequence the cursor stops on the predecessor of [t]
    in the timeline. *)
Lemma cursor_finds_predecessor states t p :
  time_ordered states → in_span states t → t ∉ timestamp <$> states →
  first_pair_reaching states t = Some p →
  timeline_predecessor (time_state_dict_of states) t (timestamp p.1, p.1).
Proof.
  intros Hord (s_first & s_last & Hh & Hl & Hfirst & Hlast) Hnin Hp.
  destruct (first_pair_reaching_ordered _ _ _ _ Hord Hh Hfirst Hnin Hp)
    as (Hbetween & Hlater & Hsplit).
  split_and!.
  - apply dict_get_elem_of. by rewrite time_state_dict_get.
  - simpl. lia.
  - simpl. intros k Hk Hlt.
    apply time_state_dict_keys_elem, list_elem_of_fmap in Hk as (s & -> & Hs).
    apply Hsplit in Hs. lia.
Qed.

Lemma timeline_predecessor_unique states t (e e' : datetime * State A) :
  timeline_predecessor (time_state_dict_of states) t e →
  timeline_predecessor (time_state_dict_of states) t e' → e = e'.
Proof.
  intros (Hin & Hlt & Hmax) (Hin' & Hlt' & Hmax').
  pose proof (Hmax _ (dict_entry_key_elem _ _ Hin') Hlt').
  pose proof (Hmax' _ (dict_entry_key_elem _ _ Hin) Hlt).
  destruct e as [k s], e' as [k' s']. simpl in *.
  assert (k = k') as -> by lia.
  apply time_state_dict_entry in Hin, Hin'. congruence.
Qed.
End timeline.

(** ** The interpolated vector between two neighbours of the timeline *)

Section between.
Context `{Platform} {A : Type}.
Implicit Types (d : list (datetime * State A)) (t : datetime) (tti : list datetime).




End between.

(** ** Linearity *)




(** ** Exact-time passthrough *)

(** C2 (as amended).  For a requested time [t] that is a timestamp of the
    sequence and lies in the span between the timestamps of the first and
    last state, the call succeeds and returns for [t] the later state of the
    sequence at [t] itself; [t] is not among the times interpolated. *)
Theorem existing_time_passthrough `{Platform} {A M} (h : list (Cell A M))
    (sms : loc) (states : list (State A)) (D : nat) (times : list datetime) (t : datetime) :
  sms_states h sms = Ok states → uniform_dimension D states →
  t ∈ times → t ∈ timestamp <$> states → in_span states t →
  ∃ out s, returned_states sms times h = Ok out
           ∧ later_state_at states t = Some s
           ∧ t ∈ filter (in_span states) times
           ∧ (∀ i, filter (in_span states) times !! i = Some t → out !! i = Some s)
           ∧ t ∉ times_to_interpolate_of states (filter (in_span states) times).
Proof.
  intros Hs Hdim Hin Hpresent Hspan.
  destruct (returned_states_ok h sms states D times Hs Hdim) as (out & Hout & Hall).
  { apply Exists_exists. eauto. }
  apply time_state_dict_keys_elem in Hpresent as Hkey.
  destruct (dict_get_is_Some _ _ Hkey) as [s Hget]. rewrite time_state_dict_get in Hget.
  exists out, s. split_and!; [done | done | by apply list_elem_of_filter | |].
  - intros i Hi. destruct (Forall2_lookup_l _ _ _ _ _ Hall Hi) as (s' & Hsi & Hres).
    unfold result_state in Hres. rewrite Hget in Hres. congruence.
  - unfold times_to_interpolate_of. rewrite elem_of_sorted, elem_of_difference.
    rewrite !elem_of_list_to_set. naive_solver.
Qed.

Lemma existing_time_passthrough_witness :
  ∃ out s, returned_states 2%nat [0; 5; 10] ex_store = Ok out
           ∧ later_state_at [ex_a; ex_b] 10 = Some s
           ∧ 10 ∈ filter (in_span [ex_a; ex_b]) [0; 5; 10]
           ∧ (∀ i, filter (in_span [ex_a; ex_b]) [0; 5; 10] !! i = Some 10 → out !! i = Some s)
           ∧ 10 ∉ times_to_interpolate_of [ex_a; ex_b] (filter (in_span [ex_a; ex_b]) [0; 5; 10]).
Proof.
  apply (existing_time_passthrough ex_store 2%nat [ex_a; ex_b] 2 [0; 5; 10] 10).
  - reflexivity.
  - repeat constructor.
  - do 2 apply list_elem_of_further. apply list_elem_of_here.
  - apply list_elem_of_further, list_elem_of_here.
  - exists ex_a, ex_b. simpl. split_and!; [reflexivity | reflexivity | lia | lia].
Defined.

(** The timestamp 5 of the sequence 1, 5, 3 is outside the span from 1 to
    3: asked for alone, it is discarded and the call raises. *)
Lemma existing_time_outside_span_dropped :
  5 ∈ timestamp <$> ex_late
  ∧ sms_states ex_store_late 1%nat = Ok ex_late
  ∧ returned_states 1%nat [5] ex_store_late = Raise IndexError
  ∧ ¬ ∃ out s, returned_states 1%nat [5] ex_store_late = Ok out
               ∧ later_state_at ex_late 5 = Some s ∧ s ∈ out.
Proof.
  split_and!.
  - apply list_elem_of_further, list_elem_of_here.
  - reflexivity.
  - reflexivity.
  - intros (out & s & Hout & _). vm_compute in Hout. discriminate.
Qed.

(** ** Order of the output *)

Lemma Forall2_timestamps `{Platform} {A} (states : list (State A)) (D : nat)
    (kept0 kept : list datetime) (out : list (State A)) :
  Forall2 (λ t s, result_state states D kept0 t = Some s) kept out →
  timestamp <$> out = kept.
Proof.
  induction 1 as [|t s kept out Hres _ IH]; [done|].
  rewrite fmap_cons, IH. f_equal. by apply result_state_timestamp in Hres.
Qed.

(** C4 (as amended).  For a list of times with at least one in the span,
    the call succeeds and the timestamps of the returned states are the
    requested times that lie in the span, in the caller's order and as often
    as the caller gave them. *)
Theorem output_follows_query_order `{Platform} {A M} (h : list (Cell A M))
    (sms : loc) (states : list (State A)) (D : nat) (times : list datetime) :
  sms_states h sms = Ok states → uniform_dimension D states →
  Exists (in_span states) times →
  ∃ out, returned_states sms times h = Ok out
         ∧ timestamp <$> out = filter (in_span states) times.
Proof.
  intros Hs Hdim Hex.
  destruct (returned_states_ok h sms states D times Hs Hdim Hex) as (out & Hout & Hall).
  exists out. split; [done|]. by apply (Forall2_timestamps states D _ _ _ Hall).
Qed.

Lemma output_follows_query_order_witness :
  ∃ out, returned_states 2%nat [10; 15; 5; 0] ex_store = Ok out
         ∧ timestamp <$> out = filter (in_span [ex_a; ex_b]) [10; 15; 5; 0].
Proof.
  apply (output_follows_query_order ex_store 2%nat [ex_a; ex_b] 2 [10; 15; 5; 0]).
  - reflexivity.
  - repeat constructor.
  - apply Exists_cons_hd. exists ex_a, ex_b. simpl.
    split_and!; [reflexivity | reflexivity | lia | lia].
Defined.

(** A time requested twice comes out twice. *)
Lemma repeated_query_time_repeated_in_output :
  ∃ out, returned_states 2%nat [5; 5] ex_store = Ok out
         ∧ timestamp <$> out = [5; 5]
         ∧ ¬ NoDup (timestamp <$> out).
Proof.
  eexists. split; [vm_compute; reflexivity|]. split; [reflexivity|].
  simpl. intros Hnd. apply NoDup_cons in Hnd as [Hnin _].
  apply Hnin, list_elem_of_here.
Qed.

(** ** Template fidelity *)

(** C5 (as amended).  For a time-ordered sequence and a requested time [t]
    of the span that is not a timestamp of the sequence, the state returned
    for [t] is the clone of the state that precedes [t] in the timeline (the
    entry with the greatest timestamp below [t]): it has that state's
    attributes, the timestamp [t] and the interpolated vector. *)
Theorem synthesized_state_clones_predecessor `{Platform} {A M} (h : list (Cell A M))
    (sms : loc) (states : list (State A)) (D : nat) (times : list datetime) (t : datetime) :
  sms_states h sms = Ok states → time_ordered states → uniform_dimension D states →
  t ∈ times → in_span states t → t ∉ timestamp <$> states →
  ∃ out e, returned_states sms times h = Ok out
           ∧ timeline_predecessor (time_state_dict_of states) t e
           ∧ t ∈ filter (in_span states) times
           ∧ cloned_at (filter (in_span states) times) out t e
               (interpolated_vector (time_state_dict_of states) D
                  (times_to_interpolate_of states (filter (in_span states) times)) t).
Proof.
  intros Hs Hord Hdim Hin Hspan Hnin.
  destruct (returned_states_ok h sms states D times Hs Hdim) as (out & Hout & Hall).
  { apply Exists_exists. eauto. }
  assert (t ∈ filter (in_span states) times) as Hkept by (by apply list_elem_of_filter).
  assert (later_state_at states t = None) as Hnone.
  { rewrite <- time_state_dict_get. apply dict_get_None.
    by rewrite time_state_dict_keys_elem. }
  apply list_elem_of_lookup in Hkept as Hi0. destruct Hi0 as [i0 Hi0].
  destruct (Forall2_lookup_l _ _ _ _ _ Hall Hi0) as (s0 & _ & Hres0).
  unfold result_state in Hres0. rewrite Hnone in Hres0.
  destruct (first_pair_reaching states t) as [p|] eqn:Hp; [|done].
  exists out, (timestamp p.1, p.1).
  split_and!; [done | by apply cursor_finds_predecessor | done |].
  intros i Hi. destruct (Forall2_lookup_l _ _ _ _ _ Hall Hi) as (s & Hsi & Hres).
  unfold result_state in Hres. rewrite Hnone, Hp in Hres. injection Hres as <-.
  eexists. split; [done|]. done.
Qed.

Lemma synthesized_state_clones_predecessor_witness :
  ∃ out e, returned_states 2%nat [0; 5; 10] ex_store = Ok out
           ∧ timeline_predecessor (time_state_dict_of [ex_a; ex_b]) 5 e
           ∧ 5 ∈ filter (in_span [ex_a; ex_b]) [0; 5; 10]
           ∧ cloned_at (filter (in_span [ex_a; ex_b]) [0; 5; 10]) out 5 e
               (interpolated_vector (time_state_dict_of [ex_a; ex_b]) 2
                  (times_to_interpolate_of [ex_a; ex_b]
                     (filter (in_span [ex_a; ex_b]) [0; 5; 10])) 5).
Proof.
  apply (synthesized_state_clones_predecessor ex_store 2%nat [ex_a; ex_b] 2 [0; 5; 10] 5).
  - reflexivity.
  - repeat constructor. simpl. lia.
  - repeat constructor.
  - apply list_elem_of_further, list_elem_of_here.
  - exists ex_a, ex_b. simpl. split_and!; [reflexivity | reflexivity | lia | lia].
  - simpl. rewrite !not_elem_of_cons. split_and!; [lia | lia | apply not_elem_of_nil].
Defined.

(** On the sequence with timestamps 0, 10, 2, 5 the entry before time 3 in
    the timeline is the state at 2, but the state returned for 3 carries the
    attributes of the state at 0. *)
Lemma synthesized_state_template_unordered :
  timeline_predecessor (time_state_dict_of ex_unordered) 3 (2, ex_u2)
  ∧ in_span ex_unordered 3
  ∧ (∃ s, returned_states 1%nat [3] ex_store_unordered = Ok [s]
          ∧ attributes s = attributes ex_u0 ∧ attributes s ≠ attributes ex_u2)
  ∧ ¬ ∀ out v, returned_states 1%nat [3] ex_store_unordered = Ok out →
        cloned_at (filter (in_span ex_unordered) [3]) out 3 (2, ex_u2) v.
Proof.
  split_and!.
  - split_and!.
    + do 2 apply list_elem_of_further. apply list_elem_of_here.
    + simpl. lia.
    + simpl. intros k. rewrite !elem_of_cons, elem_of_nil. lia.
  - exists ex_u0, ex_u3. simpl. split_and!; [done | done | lia | lia].
  - eexists. split; [vm_compute; reflexivity|]. simpl. split; [done | lia].
  - intros Hclaim.
    specialize (Hclaim _ [] ltac:(vm_compute; reflexivity) 0%nat eq_refl).
    destruct Hclaim as (s & [= <-] & _ & Hattr & _). simpl in Hattr. lia.
Qed.

(** ** Clipping and the range error *)

Section clipping.
Context `{Platform} {A M : Type}.
Implicit Types (h : list (Cell A M)) (states : list (State A)) (times : list datetime).

Lemma interpolate_list_form (sms : loc) o states times h :
  get_sms h sms = Ok o → get_states h (attr_states o) = Ok states →
  interpolate_state_mutable_sequence sms (TimeList times) h
  = ((interpolate_states states times).1,
     match (interpolate_states states times).2 with
     | Ok _ => Ok (RSms (length h))
     | Raise e => Raise e
     end,
     h ++ added_cells (length h) o (interpolate_states states times).2).
Proof.
  intros Ho Hs. unfold interpolate_state_mutable_sequence.
  rewrite (interpolate_times_list_spec _ _ _ _ _ Ho Hs).
  by destruct (interpolate_states states times) as [ws [out|e]].
Qed.

Lemma Forall_in_span_filter states times :
  Forall (in_span states) (filter (in_span states) times).
Proof. apply Forall_forall. intros t Ht. by apply list_elem_of_filter in Ht as [? _]. Qed.

(** With some times in the span and some outside, the call goes on as a
    call on the times in the span, after one warning. *)
Lemma interpolate_states_clipped states s_first s_last times :
  head states = Some s_first → last states = Some s_last →
  Exists (in_span states) times → Exists (λ t, ¬ in_span states t) times →
  interpolate_states states times
  = ([OutsideTimeRange (timestamp s_first) (timestamp s_last)
        (list_to_set times ∖ list_to_set (filter (in_span states) times))],
     (interpolate_states states (filter (in_span states) times)).2)
  ∧ (interpolate_states states (filter (in_span states) times)).1 = [].
Proof.
  intros Hh Hl Hin Hout.
  apply Exists_exists in Hin as (t_in & Ht_in & Hspan).
  assert (t_in ∈ filter (in_span states) times) as Hkept by (by apply list_elem_of_filter).
  assert (filter (in_span states) times ≠ []) as Hne.
  { intros Hnil. rewrite Hnil in Hkept. by apply elem_of_nil in Hkept. }
  assert (times ≠ []) as Hne' by (intros ->; by apply elem_of_nil in Ht_in).
  assert (¬ Forall (in_span states) times) as Hnall.
  { intros Hall. apply Exists_exists in Hout as (t_out & Ht_out & Hnspan).
    rewrite Forall_forall in Hall. by apply Hnspan, Hall. }
  unfold interpolate_states.
  rewrite (filter_times_spec _ _ _ _ Hh Hl Hne'), (filter_times_spec _ _ _ _ Hh Hl Hne).
  rewrite (decide_False (P := Forall (in_span states) times)) by done.
  rewrite (decide_False (P := filter (in_span states) times = [])) by done.
  rewrite decide_True by apply Forall_in_span_filter. done.
Qed.
End clipping.

(** C3 (as amended).  For a non-empty sequence and a non-empty list of
    requested times: when every requested time is outside the span from the
    timestamp of the first state to that of the last, the call raises
    [IndexError] and returns nothing; when some but not all are outside, the
    call gives one warning whose set of removed times holds exactly the
    requested times outside the span, and otherwise ends as the call on the
    times of the span, in their order, does. *)
Theorem out_of_span_times_rejected_or_dropped `{Platform} {A M} (h : list (Cell A M))
    (sms : loc) (states : list (State A)) (times : list datetime) :
  sms_states h sms = Ok states → states ≠ [] → times ≠ [] →
  (Forall (λ t, ¬ in_span states t) times →
   (interpolate_state_mutable_sequence sms (TimeList times) h).1
   = ([], Raise IndexError))
  ∧ (Exists (in_span states) times → Exists (λ t, ¬ in_span states t) times →
     ∃ s_first s_last removed,
       head states = Some s_first ∧ last states = Some s_last
       ∧ emitted_warnings sms (TimeList times) h
         = [OutsideTimeRange (timestamp s_first) (timestamp s_last) removed]
       ∧ (∀ t, t ∈ removed ↔ t ∈ times ∧ ¬ in_span states t)
       ∧ (interpolate_state_mutable_sequence sms (TimeList times) h).1.2
         = (interpolate_state_mutable_sequence sms
              (TimeList (filter (in_span states) times)) h).1.2
       ∧ (interpolate_state_mutable_sequence sms (TimeList times) h).2
         = (interpolate_state_mutable_sequence sms
              (TimeList (filter (in_span states) times)) h).2
       ∧ emitted_warnings sms (TimeList (filter (in_span states) times)) h = []).
Proof.
  intros Hs Hne Htimes. destruct (sms_states_inv _ _ _ Hs) as (o & Ho & Hst).
  split.
  - intros Hall. rewrite (interpolate_list_form _ _ _ _ _ Ho Hst).
    rewrite interpolate_states_all_outside; [done | done | done |].
    apply filter_none. done.
  - intros Hin Hout.
    destruct (head states) as [s_first|] eqn:Hh; [|by destruct states].
    destruct (last states) as [s_last|] eqn:Hl; [|by apply last_None in Hl].
    destruct (interpolate_states_clipped states s_first s_last times Hh Hl Hin Hout)
      as [Heq Hnil].
    exists s_first, s_last,
      (list_to_set times ∖ list_to_set (filter (in_span states) times)).
    unfold emitted_warnings. rewrite !(interpolate_list_form _ _ _ _ _ Ho Hst).
    rewrite Heq. simpl. rewrite Hnil. split_and!; try done.
    intros t. rewrite elem_of_difference, !elem_of_list_to_set, list_elem_of_filter.
    naive_solver.
Qed.

Lemma out_of_span_times_rejected_or_dropped_witness :
  (interpolate_state_mutable_sequence 2%nat (TimeList [15]) ex_store).1
  = ([], Raise IndexError)
  ∧ ∃ s_first s_last removed,
      head [ex_a; ex_b] = Some s_first ∧ last [ex_a; ex_b] = Some s_last
      ∧ emitted_warnings 2%nat (TimeList [5; 15]) ex_store
        = [OutsideTimeRange (timestamp s_first) (timestamp s_last) removed]
      ∧ (∀ t, t ∈ removed ↔ t ∈ [5; 15] ∧ ¬ in_span [ex_a; ex_b] t)
      ∧ (interpolate_state_mutable_sequence 2%nat (TimeList [5; 15]) ex_store).1.2
        = (interpolate_state_mutable_sequence 2%nat
             (TimeList (filter (in_span [ex_a; ex_b]) [5; 15])) ex_store).1.2
      ∧ (interpolate_state_mutable_sequence 2%nat (TimeList [5; 15]) ex_store).2
        = (interpolate_state_mutable_sequence 2%nat
             (TimeList (filter (in_span [ex_a; ex_b]) [5; 15])) ex_store).2
      ∧ emitted_warnings 2%nat (TimeList (filter (in_span [ex_a; ex_b]) [5; 15])) ex_store
        = [].
Proof.
  assert (¬ in_span [ex_a; ex_b] 15) as Hout.
  { intros (s1 & s2 & [= <-] & [= <-] & H1 & H2). simpl in *. lia. }
  split.
  - apply (out_of_span_times_rejected_or_dropped ex_store 2%nat [ex_a; ex_b] [15]).
    + reflexivity.
    + discriminate.
    + discriminate.
    + repeat constructor. exact Hout.
  - apply (out_of_span_times_rejected_or_dropped ex_store 2%nat [ex_a; ex_b] [5; 15]).
    + reflexivity.
    + discriminate.
    + discriminate.
    + apply Exists_cons_hd. exists ex_a, ex_b. simpl.
      split_and!; [reflexivity | reflexivity | lia | lia].
    + apply Exists_cons_tl, Exists_cons_hd. exact Hout.
Defined.

(** With no requested time at all, the call raises [ValueError], not
    [IndexError]. *)
Lemma empty_times_raise_value_error :
  sms_states ex_store 2%nat = Ok [ex_a; ex_b]
  ∧ Forall (λ t, ¬ in_span [ex_a; ex_b] t) []
  ∧ (interpolate_state_mutable_sequence 2%nat (TimeList []) ex_store).1.2
    = Raise ValueError
  ∧ (interpolate_state_mutable_sequence 2%nat (TimeList []) ex_store).1
    ≠ ([], Raise IndexError).
Proof. split_and!; [reflexivity | constructor | reflexivity | discriminate]. Qed.

(** ** The predecessor cursor on a series of calls *)

Lemma call_all_from_start {A} (states : list (State A)) (c : Cursor A) (ts : list datetime) :
  _get_previous_state states = Ok c → Sorted Z.le ts →
  call_all c ts
  = (λ t, match first_pair_reaching states t with
          | Some p => Ok p.1
          | None => Raise StopIteration
          end) <$> ts.
Proof.
  intros Hc Hsorted. destruct ts as [|t ts]; [done|].
  apply (call_all_spec states c (t :: ts) t).
  - by apply _get_previous_state_inv.
  - constructor; [done|]. constructor. lia.
Qed.

Lemma first_pair_reaching_past_end {A} (states : list (State A)) (s_last : State A)
    (t : datetime) :
  time_ordered states → last states = Some s_last → timestamp s_last < t →
  first_pair_reaching states t = None.
Proof.
  intros Hord Hl Hlt. destruct (first_pair_reaching states t) as [[b a]|] eqn:E; [|done].
  apply first_pair_reaching_elem in E as [Hin Hreach]. simpl in Hreach.
  apply list_elem_of_lookup in Hin as [i Hi]. apply pairwise_lookup in Hi as [_ Ha].
  pose proof (ordered_last_ge states s_last a Hord Hl (list_elem_of_lookup_2 _ _ _ Ha)). lia.
Qed.

(** C6 (as amended).  For a cursor built over a time-ordered sequence of at
    least two states and called with times that never decrease: a call with
    [t] at or below the last timestamp returns the earlier state of the first
    consecutive pair whose later timestamp is at or after [t]; a call with
    [t] above the last timestamp raises [StopIteration]. *)
Theorem cursor_returns_predecessor_or_raises {A} (states : list (State A))
    (s_last : State A) (ts : list datetime) :
  time_ordered states → (2 ≤ length states)%nat → last states = Some s_last →
  Sorted Z.le ts →
  ∃ c, _get_previous_state states = Ok c
       ∧ predecessor_calls (timestamp s_last) states c ts.
Proof.
  intros Hord Hlen Hl Hsorted. destruct (_get_previous_state_ok states Hlen) as [c Hc].
  exists c. split; [done|]. intros i t Hi.
  rewrite (call_all_from_start states c ts Hc Hsorted), list_lookup_fmap, Hi. simpl.
  split.
  - intros Hle.
    destruct (first_pair_reaching_is_Some states s_last t Hl Hlen Hle) as [p Hp].
    exists p. by rewrite Hp.
  - intros Hlt. by rewrite (first_pair_reaching_past_end states s_last t).
Qed.

Lemma cursor_returns_predecessor_or_raises_witness :
  ∃ c, _get_previous_state [ex_a; ex_b] = Ok c
       ∧ predecessor_calls (timestamp ex_b) [ex_a; ex_b] c [0; 5; 5; 10; 11].
Proof.
  apply (cursor_returns_predecessor_or_raises [ex_a; ex_b] ex_b [0; 5; 5; 10; 11]).
  - repeat constructor. simpl. lia.
  - simpl. lia.
  - reflexivity.
  - repeat constructor; lia.
Defined.

(** Over the sequence with timestamps 10, 0, 6, 5 the calls at 6 and then 7
    return the state at 0 and then raise: the first call is above the
    timestamp of the last state and still returns, the second is below the
    greatest timestamp and raises. *)
Lemma cursor_on_unordered_sequence :
  ∃ c, _get_previous_state ex_zigzag = Ok c
       ∧ call_all c [6; 7] = [Ok (mkState 0 [] 1%nat); Raise StopIteration]
       ∧ ¬ predecessor_calls 5 ex_zigzag c [6; 7]
       ∧ ¬ predecessor_calls 10 ex_zigzag c [6; 7].
Proof.
  eexists. split; [reflexivity|]. split; [reflexivity|]. split.
  - intros Hclaim. destruct (Hclaim 0%nat 6 eq_refl) as [_ Hraise].
    specialize (Hraise ltac:(lia)). vm_compute in Hraise. discriminate.
  - intros Hclaim. destruct (Hclaim 1%nat 7 eq_refl) as [Hok _].
    destruct (Hok ltac:(lia)) as (p & Hp & _). vm_compute in Hp. discriminate.
Qed.

(** ** The timeline of the call *)

Lemma first_occurrences_snoc (l : list Z) (x : Z) :
  first_occurrences (l ++ [x])
  = if decide (x ∈ l) then first_occurrences l else first_occurrences l ++ [x].
Proof.
  unfold first_occurrences. rewrite reverse_snoc. simpl.
  destruct (decide_rel elem_of x (reverse l)) as [Hin|Hnin].
  - rewrite decide_True; [done|]. by apply elem_of_reverse.
  - rewrite decide_False; [by rewrite reverse_cons|].
    intros Hin. by apply Hnin, elem_of_reverse.
Qed.

Lemma time_state_dict_keys_order {A} (states : list (State A)) :
  dict_keys (time_state_dict_of states) = first_occurrences (timestamp <$> states).
Proof.
  induction states as [|s states IH] using rev_ind; [done|].
  rewrite time_state_dict_of_snoc, fmap_app. simpl. rewrite first_occurrences_snoc.
  destruct (decide (timestamp s ∈ timestamp <$> states)) as [Hin|Hnin].
  - rewrite dict_set_present; [done|]. by apply time_state_dict_keys_elem.
  - rewrite dict_set_absent, dict_keys_app, IH; [done|].
    by rewrite time_state_dict_keys_elem.
Qed.

(** C7 (as amended).  The dictionary of timestamps and states the call
    works on holds each timestamp of the sequence once, in the order in which
    the timestamps first occur in the sequence, with the later state of the
    sequence at that timestamp; when the sequence is time-ordered its keys
    are in strictly ascending order. *)
Theorem timeline_of_sequence {A} (states : list (State A)) :
  (∀ t, dict_get (time_state_dict_of states) t = later_state_at states t)
  ∧ dict_keys (time_state_dict_of states) = first_occurrences (timestamp <$> states)
  ∧ (time_ordered states → StronglySorted Z.lt (dict_keys (time_state_dict_of states))).
Proof.
  split_and!.
  - apply time_state_dict_get.
  - apply time_state_dict_keys_order.
  - apply time_state_dict_keys_sorted.
Qed.

Lemma timeline_of_sequence_witness :
  (∀ t, dict_get (time_state_dict_of [ex_a; ex_a; ex_b]) t
        = later_state_at [ex_a; ex_a; ex_b] t)
  ∧ dict_keys (time_state_dict_of [ex_a; ex_a; ex_b])
    = first_occurrences (timestamp <$> [ex_a; ex_a; ex_b])
  ∧ StronglySorted Z.lt (dict_keys (time_state_dict_of [ex_a; ex_a; ex_b])).
Proof.
  destruct (timeline_of_sequence [ex_a; ex_a; ex_b]) as (Hget & Hkeys & Hsorted).
  split_and!; [exact Hget | exact Hkeys |].
  apply Hsorted. repeat constructor; simpl; lia.
Defined.

(** The keys of the dictionary stay in the order of the sequence: for the
    timestamps 0, 10, 2, 5 they are not ascending. *)
Lemma timeline_of_unordered_sequence :
  dict_keys (time_state_dict_of ex_unordered) = [0; 10; 2; 5]
  ∧ ¬ Sorted Z.le (dict_keys (time_state_dict_of ex_unordered)).
Proof.
  split; [reflexivity|]. intros Hsorted.
  change (dict_keys (time_state_dict_of ex_unordered)) with [0; 10; 2; 5] in Hsorted.
  apply Sorted_inv in Hsorted as [Hsorted _].
  apply Sorted_inv in Hsorted as [_ Hhd]. apply HdRel_inv in Hhd. lia.
Qed.

(** ** The input sequence after the call *)

Section frame.
Context `{Platform} {A M : Type}.
Implicit Types (h : list (Cell A M)) (sms : loc) (o : SmsObject).

Lemma get_sms_app h h' r o : get_sms h r = Ok o → get_sms (h ++ h') r = Ok o.
Proof.
  unfold get_sms. destruct (h !! r) as [c|] eqn:E; [|done].
  by rewrite (lookup_app_l_Some _ _ _ _ E).
Qed.

Lemma get_metadatas_app h h' r (l : list M) :
  get_metadatas h r = Ok l → get_metadatas (h ++ h') r = Ok l.
Proof.
  unfold get_metadatas. destruct (h !! r) as [c|] eqn:E; [|done].
  by rewrite (lookup_app_l_Some _ _ _ _ E).
Qed.

Lemma sms_states_app h h' sms (states : list (State A)) :
  sms_states h sms = Ok states → sms_states (h ++ h') sms = Ok states.
Proof.
  intros (o & Ho & Hs)%sms_states_inv. unfold sms_states.
  rewrite (get_sms_app _ _ _ _ Ho). simpl. by apply get_states_app.
Qed.

Lemma sms_metadatas_app h h' sms (metas : option (list M)) :
  sms_metadatas h sms = Ok metas → sms_metadatas (h ++ h') sms = Ok metas.
Proof.
  unfold sms_metadatas. destruct (get_sms h sms) as [o|] eqn:Ho; [|done].
  rewrite (get_sms_app _ _ _ _ Ho). simpl.
  destruct (attr_metadatas o) as [r|]; [|done].
  destruct (get_metadatas h r) as [l|] eqn:Hl; [|done].
  by rewrite (get_metadatas_app _ _ _ _ Hl).
Qed.

Lemma get_sms_lt h sms o : get_sms h sms = Ok o → (sms < length h)%nat.
Proof.
  unfold get_sms. destruct (h !! sms) as [c|] eqn:E; [|done].
  intros _. by apply lookup_lt_Some in E.
Qed.

(** The store after a call is the store before it followed by the new
    cells. *)
Lemma call_extends_store sms (times : Times) h o (states : list (State A)) :
  get_sms h sms = Ok o → get_states h (attr_states o) = Ok states →
  ∃ r, (interpolate_state_mutable_sequence sms times h).2
       = h ++ added_cells (length h) o r
       ∧ ∀ new_sms, (interpolate_state_mutable_sequence sms times h).1.2
                    = Ok (RSms new_sms) →
           new_sms = length h ∧ ∃ out, r = Ok out.
Proof.
  intros Ho Hs. destruct times as [t|ts].
  - unfold interpolate_state_mutable_sequence.
    rewrite (interpolate_times_list_spec _ _ _ _ _ Ho Hs).
    exists (interpolate_states states [t]).2.
    destruct (interpolate_states states [t]) as [ws [out|e]]; simpl.
    + split; [done|]. intros new_sms Hret.
      destruct (sms_states _ _) as [l|]; simpl in Hret; [|done].
      by destruct (getitem_last l).
    + done.
  - rewrite (interpolate_list_form _ _ _ _ _ Ho Hs). simpl.
    exists (interpolate_states states ts).2. split; [done|].
    intros new_sms Hret. destruct (interpolate_states states ts).2 as [out|e]; [|done].
    injection Hret as <-. eauto.
Qed.
End frame.

(** C8.  A call leaves every cell of the store as it was: the input
    sequence still has its list of states and, when it has one, its list of
    metadatas.  The sequence returned is an object that was not in the store
    before; its list of states is a new list and, when the input has a list
    of metadatas, its list of metadatas is a new, empty list. *)
Theorem input_sequence_not_mutated `{Platform} {A M} (h : list (Cell A M))
    (sms : loc) (times : Times)
    (states : list (State A)) (metas : option (list M)) :
  sms_states h sms = Ok states → sms_metadatas h sms = Ok metas →
  h `prefix_of` (interpolate_state_mutable_sequence sms times h).2
  ∧ sms_states (interpolate_state_mutable_sequence sms times h).2 sms = Ok states
  ∧ sms_metadatas (interpolate_state_mutable_sequence sms times h).2 sms = Ok metas
  ∧ ∀ new_sms,
      (interpolate_state_mutable_sequence sms times h).1.2 = Ok (RSms new_sms) →
      new_sms ≠ sms ∧ h !! new_sms = None
      ∧ sms_metadatas (interpolate_state_mutable_sequence sms times h).2 new_sms
        = Ok ((λ _, []) <$> metas)
      ∧ ∃ o', get_sms (interpolate_state_mutable_sequence sms times h).2 new_sms = Ok o'
              ∧ h !! attr_states o' = None
              ∧ ∀ r, attr_metadatas o' = Some r → h !! r = None.
Proof.
  intros Hs Hm. destruct (sms_states_inv _ _ _ Hs) as (o & Ho & Hst).
  destruct (call_extends_store sms times h o states Ho Hst) as (r & Hstore & Hnew).
  rewrite Hstore. split_and!.
  - by apply prefix_app_r.
  - by apply sms_states_app.
  - by apply sms_metadatas_app.
  - intros new_sms Hret. destruct (Hnew new_sms Hret) as (-> & out & ->).
    pose proof (get_sms_lt _ _ _ Ho) as Hlt.
    split; [lia|]. split; [by apply lookup_ge_None|].
    unfold sms_metadatas in Hm. rewrite Ho in Hm. simpl in Hm.
    unfold sms_metadatas, get_sms, get_metadatas, added_cells.
    rewrite lookup_app_r, Nat.sub_diag by lia.
    destruct (attr_metadatas o) as [m|]; simpl.
    + rewrite lookup_app_r by lia.
      replace (length h + 1 - length h)%nat with 1%nat by lia. simpl.
      destruct (get_metadatas h m) as [l|]; [|done]. injection Hm as <-.
      split; [done|]. eexists. split; [done|]. simpl.
      split; [apply lookup_ge_None; lia|].
      intros r [= <-]. apply lookup_ge_None. lia.
    + injection Hm as <-. split; [done|]. eexists. split; [done|]. simpl.
      split; [apply lookup_ge_None; lia | done].
Qed.

Lemma input_sequence_not_mutated_witness :
  ex_store `prefix_of`
    (interpolate_state_mutable_sequence 2%nat (TimeList [0; 5; 10]) ex_store).2
  ∧ sms_states (interpolate_state_mutable_sequence 2%nat (TimeList [0; 5; 10]) ex_store).2
      2%nat = Ok [ex_a; ex_b]
  ∧ sms_metadatas (interpolate_state_mutable_sequence 2%nat (TimeList [0; 5; 10]) ex_store).2
      2%nat = Ok (Some [1%nat; 2%nat])
  ∧ ∀ new_sms,
      (interpolate_state_mutable_sequence 2%nat (TimeList [0; 5; 10]) ex_store).1.2
      = Ok (RSms new_sms) →
      new_sms ≠ 2%nat ∧ ex_store !! new_sms = None
      ∧ sms_metadatas
          (interpolate_state_mutable_sequence 2%nat (TimeList [0; 5; 10]) ex_store).2 new_sms
        = Ok ((λ _, []) <$> Some [1%nat; 2%nat])
      ∧ ∃ o', get_sms
                (interpolate_state_mutable_sequence 2%nat (TimeList [0; 5; 10]) ex_store).2
                new_sms = Ok o'
              ∧ ex_store !! attr_states o' = None
              ∧ ∀ r, attr_metadatas o' = Some r → ex_store !! r = None.
Proof.
  apply (input_sequence_not_mutated ex_store 2%nat (TimeList [0; 5; 10]) [ex_a; ex_b]
           (Some [1%nat; 2%nat])).
  - reflexivity.
  - reflexivity.
Defined.

(** ** [time_range] on a reversed range *)

(** C9.  With the end one second before the start and a step of three
    seconds, [time_range] yields the start, which lies after the end; the
    specification's [start + k * step] for [k] from 0 to
    [floor ((end - start) / step)] is the empty sequence there.  With the
    default step of one second the same range yields nothing. *)
Theorem time_range_reversed_yields_start :
  time_range 1000000 0 (timedelta_seconds 3) = Ok [1000000]
  ∧ time_range_spec 1000000 0 (timedelta_seconds 3) = []
  ∧ time_range_default 1000000 0 = Ok [].
Proof. split_and!; reflexivity. Qed.

(** The default step is one second. *)
Lemma time_range_default_step (start_time end_time : datetime) :
  time_range_default start_time end_time = time_range start_time end_time 1000000.
Proof. reflexivity. Qed.

(** * Further properties of the code *)

(** ** [time_range]: what is yielded *)

(** The sign of a rounded quotient is the sign of the exact one. *)

Section rounding_sign.

Lemma shr_1_nonneg (mrs : shr_record) : 0 ≤ shr_m mrs → 0 ≤ shr_m (shr_1 mrs).
Proof. destruct mrs as [[|[p|p|]|p] r s]; simpl; lia. Qed.

Lemma iter_pos_shr_1_nonneg (p : positive) (mrs : shr_record) :
  0 ≤ shr_m mrs → 0 ≤ shr_m (SpecFloat.iter_pos shr_1 p mrs).
Proof.
  revert mrs. induction p as [p IH|p IH|]; intros mrs Hm; simpl.
  - by apply IH, IH, shr_1_nonneg.
  - by apply IH, IH.
  - by apply shr_1_nonneg.
Qed.

Lemma shr_fexp_nonneg (m e : Z) (l : location) :
  0 ≤ m → 0 ≤ shr_m (shr_fexp 53 1024 m e l).1.
Proof.
  intros Hm. unfold shr_fexp, shr.
  assert (0 ≤ shr_m (shr_record_of_loc m l)) as Hrec by (by destruct l as [|[]]).
  destruct (fexp 53 1024 (Zdigits2 m + e) - e); simpl; [done | | done].
  by apply iter_pos_shr_1_nonneg.
Qed.

Lemma round_nearest_even_nonneg (m : Z) (l : location) :
  0 ≤ m → 0 ≤ round_nearest_even m l.
Proof. intros Hm. destruct l as [|[]]; simpl; try lia. destruct (Z.even m); lia. Qed.

Lemma binary_round_aux_sign (sx : bool) (mx ex : Z) (lx : location) :
  0 ≤ mx →
  match binary_round_aux 53 1024 sx mx ex lx with
  | S754_zero s | S754_infinity s | S754_finite s _ _ => s = sx
  | S754_nan => False
  end.
Proof.
  intros Hmx. unfold binary_round_aux.
  pose proof (shr_fexp_nonneg mx ex lx Hmx) as H1.
  destruct (shr_fexp 53 1024 mx ex lx) as [mrs' e']. simpl in H1.
  pose proof (shr_fexp_nonneg _ e' loc_Exact
                (round_nearest_even_nonneg _ (loc_of_shr_record mrs') H1)) as H2.
  destruct (shr_fexp 53 1024 _ e' loc_Exact) as [mrs'' e'']. simpl in H2.
  destruct (shr_m mrs''); [done | | lia].
  by destruct (e'' <=? 1024 - 53).
Qed.

Lemma SFdiv_core_binary_nonneg (m1 m2 : positive) (e1 e2 : Z) :
  0 ≤ (SFdiv_core_binary 53 1024 (Z.pos m1) e1 (Z.pos m2) e2).1.1.
Proof.
  unfold SFdiv_core_binary. cbv zeta.
  set (s := e1 - e2 - _).
  set (m' := match s with Z.pos _ => Z.shiftl (Z.pos m1) s | 0 => Z.pos m1 | _ => 0 end).
  assert (0 ≤ m') as Hm'.
  { unfold m'. destruct s; [lia | | lia]. by apply Z.shiftl_nonneg. }
  pose proof (Z.div_pos m' (Z.pos m2) Hm' ltac:(lia)) as Hq.
  unfold Z.div in Hq. by destruct (Z.div_eucl m' (Z.pos m2)).
Qed.

Lemma nearest_quotient_sign (a b : Z) :
  b ≠ 0 →
  match nearest_quotient a b with
  | S754_zero s | S754_infinity s | S754_finite s _ _ =>
      a = 0 ∨ s = xorb (a <? 0) (b <? 0)
  | S754_nan => False
  end.
Proof.
  intros Hb. unfold nearest_quotient. destruct a as [|a|a]; [by left | |].
  all: destruct b as [|b|b]; [done | |]; unfold float_div, SFdiv; simpl Z.to_pos.
  all: pose proof (SFdiv_core_binary_nonneg a b 0 0) as Hq;
    destruct (SFdiv_core_binary 53 1024 (Z.pos a) 0 (Z.pos b) 0) as [[mz ez] lz];
    simpl in Hq.
  all: match goal with
       | |- context [binary_round_aux _ _ ?s _ _ _] =>
           pose proof (binary_round_aux_sign s mz ez lz Hq) as Hs;
           destruct (binary_round_aux 53 1024 s mz ez lz); try done; by right
       end.
Qed.

(** The number of steps [int(n_time_steps)] of a call with a step that is
    not zero: none when the range is empty, and otherwise of the sign of the
    exact quotient. *)
Lemma time_range_steps (start_time end_time : datetime) (timestep : timedelta) :
  timestep ≠ 0 →
  time_range start_time end_time timestep = Raise OverflowError
  ∨ ∃ n, time_range start_time end_time timestep
         = Ok ((λ x, start_time + x * timestep) <$> range (n + 1))
         ∧ (end_time = start_time → n = 0)
         ∧ (0 < (end_time - start_time) * timestep → 0 ≤ n)
         ∧ ((end_time - start_time) * timestep < 0 → n ≤ 0).
Proof.
  intros Hstep. unfold time_range, timedelta_truediv, int_truediv.
  destruct (Z.eqb_spec timestep 0) as [?|_]; [done|].
  pose proof (nearest_quotient_sign (end_time - start_time) timestep Hstep) as Hsign.
  destruct (nearest_quotient (end_time - start_time) timestep) as [s|s| |s m e] eqn:Eq;
    simpl; [ | by left | done | ].
  - right. exists 0. split_and!; done.
  - right. eexists. split; [done|].
    assert (end_time ≠ start_time) as Hne.
    { intros ->. rewrite Z.sub_diag in Eq. by destruct timestep. }
    pose proof (proj2 (Z.shiftl_nonneg (Z.pos m) e) ltac:(lia)) as Hpos.
    destruct Hsign as [? | ->]; [lia|].
    split_and!; [done | |].
    + intros Hprod.
      destruct (Z.ltb_spec (end_time - start_time) 0), (Z.ltb_spec timestep 0); simpl; nia.
    + intros Hprod.
      destruct (Z.ltb_spec (end_time - start_time) 0), (Z.ltb_spec timestep 0); simpl; nia.
Qed.
End rounding_sign.

Lemma range_lookup_Some (n : Z) (k : nat) (z : Z) :
  range n !! k = Some z ↔ z = Z.of_nat k ∧ Z.of_nat k < n.
Proof.
  unfold range. rewrite list_lookup_fmap. split.
  - destruct (seq 0 (Z.to_nat n) !! k) as [j|] eqn:E; [|done].
    apply lookup_seq in E as [-> Hlt]. simpl. intros [= <-]. lia.
  - intros [-> Hlt]. rewrite lookup_seq_lt by lia. done.
Qed.

Lemma range_succ (n : Z) : 0 ≤ n → range (n + 1) = 0 :: ((λ x, x + 1) <$> range n).
Proof.
  intros Hn. unfold range. rewrite Z2Nat.inj_add by lia.
  change (Z.to_nat 1) with 1%nat. rewrite Nat.add_1_r. simpl. f_equal.
  rewrite <- fmap_S_seq, <- !list_fmap_compose. apply list_fmap_ext.
  intros _ k _. simpl. lia.
Qed.

(** From the start, along the sign of the step: when the step is not zero
    and does not point away from the end, the start is yielded first. *)
Lemma time_range_from_start (start_time end_time : datetime) (timestep : timedelta) :
  timestep ≠ 0 → 0 ≤ (end_time - start_time) * timestep →
  time_range start_time end_time timestep = Raise OverflowError
  ∨ ∃ l, time_range start_time end_time timestep = Ok (start_time :: l)
         ∧ ∀ (k : nat) x, (start_time :: l) !! k = Some x →
             x = start_time + Z.of_nat k * timestep.
Proof.
  intros Hstep Hsame.
  destruct (time_range_steps start_time end_time timestep Hstep)
    as [?|(n & Heq & Hzero & Hpos & _)]; [by left|right].
  assert (0 ≤ n) as Hn.
  { destruct (decide (end_time = start_time)) as [?|?]; [by rewrite Hzero|].
    apply Hpos. nia. }
  assert (∀ (k : nat) x,
            ((λ x, start_time + x * timestep) <$> range (n + 1)) !! k = Some x →
            x = start_time + Z.of_nat k * timestep) as Hgrid.
  { intros k x Hk. rewrite list_lookup_fmap in Hk.
    destruct (range (n + 1) !! k) as [z|] eqn:Ez; [|done].
    apply range_lookup_Some in Ez as [-> _]. simpl in Hk. by injection Hk as <-. }
  rewrite Heq. rewrite range_succ in * by done. rewrite fmap_cons in *.
  rewrite Z.mul_0_l, Z.add_0_r in *. eauto.
Qed.

(** X1.  With a positive step and the start not after the end, [time_range]
    yields at least one time: the first is the start, the one at position
    [k] is [start + k * step] and none is before the start.  The call can
    only fail when the quotient of the duration by the step is beyond the
    floats. *)
Theorem time_range_forward_contents (start_time end_time : datetime) (timestep : timedelta) :
  0 < timestep → start_time ≤ end_time →
  time_range start_time end_time timestep = Raise OverflowError
  ∨ ∃ l, time_range start_time end_time timestep = Ok (start_time :: l)
         ∧ ∀ (k : nat) x, (start_time :: l) !! k = Some x →
             x = start_time + Z.of_nat k * timestep ∧ start_time ≤ x.
Proof.
  intros Hstep Hle.
  destruct (time_range_from_start start_time end_time timestep) as [?|(l & Heq & Hgrid)];
    [lia | nia | by left |].
  right. exists l. split; [done|]. intros k x Hk.
  specialize (Hgrid k x Hk). split; [done|]. nia.
Qed.

Lemma time_range_forward_contents_witness :
  time_range 0 10 3 = Raise OverflowError
  ∨ ∃ l, time_range 0 10 3 = Ok (0 :: l)
         ∧ ∀ (k : nat) x, (0 :: l) !! k = Some x → x = 0 + Z.of_nat k * 3 ∧ 0 ≤ x.
Proof. apply (time_range_forward_contents 0 10 3); lia. Defined.

(** X2.  A step of zero makes [time_range] raise [ZeroDivisionError],
    whatever the range; with any other step, a range that ends where it
    starts yields the start alone. *)
Theorem time_range_zero_step_or_duration (start_time end_time : datetime)
    (timestep : timedelta) :
  time_range start_time end_time 0 = Raise ZeroDivisionError
  ∧ time_range start_time start_time timestep
    = if decide (timestep = 0) then Raise ZeroDivisionError else Ok [start_time].
Proof.
  split; [done|]. destruct (decide (timestep = 0)) as [->|Hstep]; [done|].
  destruct (time_range_steps start_time start_time timestep Hstep)
    as [Hraise|(n & Heq & Hzero & _)].
  - unfold time_range, timedelta_truediv, int_truediv in Hraise.
    rewrite Z.sub_diag in Hraise. by destruct timestep.
  - rewrite Heq, Hzero by done. simpl. f_equal. f_equal. lia.
Qed.

(** X3.  With a positive step and the end before the start, [time_range]
    yields nothing or the start alone, and never a second time.  The call can
    only fail when the quotient of the duration by the step is beyond the
    floats. *)
Theorem time_range_reversed (start_time end_time : datetime) (timestep : timedelta) :
  0 < timestep → end_time < start_time →
  time_range start_time end_time timestep = Ok []
  ∨ time_range start_time end_time timestep = Ok [start_time]
  ∨ time_range start_time end_time timestep = Raise OverflowError.
Proof.
  intros Hstep Hlt.
  destruct (time_range_steps start_time end_time timestep ltac:(lia))
    as [?|(n & Heq & _ & _ & Hneg)]; [by right; right|].
  assert (n ≤ 0) as Hn by (apply Hneg; nia).
  rewrite Heq. destruct (decide (n = 0)) as [->|Hne].
  - right. left. simpl. f_equal. f_equal. lia.
  - left. unfold range. by replace (Z.to_nat (n + 1)) with 0%nat by lia.
Qed.

Lemma time_range_reversed_witness :
  time_range 10 0 3 = Ok []
  ∨ time_range 10 0 3 = Ok [10]
  ∨ time_range 10 0 3 = Raise OverflowError.
Proof. apply (time_range_reversed 10 0 3); lia. Defined.

(** X4.  With a negative step and the end not after the start,
    [time_range] runs downwards from the start: it yields at least one time,
    the first is the start, the one at position [k] is [start + k * step] and
    none is after the start.  The call can only fail when the quotient of the
    duration by the step is beyond the floats. *)
Theorem time_range_negative_step (start_time end_time : datetime) (timestep : timedelta) :
  timestep < 0 → end_time ≤ start_time →
  time_range start_time end_time timestep = Raise OverflowError
  ∨ ∃ l, time_range start_time end_time timestep = Ok (start_time :: l)
         ∧ ∀ (k : nat) x, (start_time :: l) !! k = Some x →
             x = start_time + Z.of_nat k * timestep ∧ x ≤ start_time.
Proof.
  intros Hstep Hle.
  destruct (time_range_from_start start_time end_time timestep) as [?|(l & Heq & Hgrid)];
    [lia | nia | by left |].
  right. exists l. split; [done|]. intros k x Hk.
  specialize (Hgrid k x Hk). split; [done|]. nia.
Qed.

Lemma time_range_negative_step_witness :
  time_range 10 0 (-3) = Raise OverflowError
  ∨ ∃ l, time_range 10 0 (-3) = Ok (10 :: l)
         ∧ ∀ (k : nat) x, (10 :: l) !! k = Some x → x = 10 + Z.of_nat k * -3 ∧ x ≤ 10.
Proof. apply (time_range_negative_step 10 0 (-3)); lia. Defined.

(** ** [pairwise] and the cursor *)

(** X5.  [pairwise] of a list has one pair fewer than the list has
    elements (none for a list of fewer than two), and its pair at position
    [i] is made of the elements at positions [i] and [i + 1]. *)
Theorem pairwise_pairs {X} (l : list X) :
  length (pairwise l) = (length l - 1)%nat
  ∧ ∀ (i : nat) (x y : X),
      pairwise l !! i = Some (x, y) ↔ l !! i = Some x ∧ l !! S i = Some y.
Proof. split; [apply pairwise_length | apply pairwise_lookup]. Qed.

(** X6.  Building the cursor raises [StopIteration] exactly when the
    sequence has fewer than two states; otherwise the cursor starts on the
    first two states, with the remaining pairs still to come. *)
Theorem get_previous_state_needs_two_states {A} (states : list (State A)) :
  (_get_previous_state states = Raise StopIteration ↔ (length states < 2)%nat)
  ∧ _get_previous_state states
    = match states with
      | s0 :: s1 :: rest => Ok (mkCursor (pairwise (s1 :: rest)) s0 s1)
      | _ => Raise StopIteration
      end.
Proof.
  destruct states as [|s0 [|s1 rest]]; simpl.
  - split; [split; [lia | done] | done].
  - split; [split; [lia | done] | done].
  - split; [split; [done | lia] | done].
Qed.

Lemma inner_fun_loop_again {A} (it : list (State A * State A)) (b a : State A)
    (t : datetime) :
  inner_fun (inner_fun_loop it b a t).2 t = inner_fun_loop it b a t.
Proof.
  revert b a. induction it as [|[b' a'] it IH]; intros b a; simpl.
  - destruct (timestamp a <? t) eqn:E; unfold inner_fun; simpl; by rewrite E.
  - destruct (timestamp a <? t) eqn:E; [apply IH|].
    unfold inner_fun. simpl. by rewrite E.
Qed.

(** X7.  Asking the cursor again for the time it was just asked for gives
    the same answer and leaves it where it is, whether that answer was a
    state or [StopIteration]. *)
Theorem cursor_same_time_again {A} (c : Cursor A) (t : datetime) :
  inner_fun (inner_fun c t).2 t = inner_fun c t.
Proof. unfold inner_fun at 2 3. apply inner_fun_loop_again. Qed.

Lemma inner_fun_loop_raise {A} (it : list (State A * State A)) (b a : State A)
    (t : datetime) (e : Exn) :
  (inner_fun_loop it b a t).1 = Raise e →
  e = StopIteration
  ∧ state_iter (inner_fun_loop it b a t).2 = []
  ∧ timestamp (state_after (inner_fun_loop it b a t).2) < t.
Proof.
  revert b a. induction it as [|[b' a'] it IH]; intros b a; simpl.
  - destruct (Z.ltb_spec (timestamp a) t); simpl; [|done].
    intros [= <-]. done.
  - destruct (Z.ltb_spec (timestamp a) t); simpl; [apply IH | done].
Qed.

(** X8.  Once a call has raised, the iterator is used up: the exception is
    [StopIteration], and every later call for the same or a later time raises
    [StopIteration] again and leaves the cursor as it is. *)
Theorem cursor_exhausted_stays_exhausted {A} (c : Cursor A) (t t' : datetime) (e : Exn) :
  (inner_fun c t).1 = Raise e → t ≤ t' →
  e = StopIteration
  ∧ inner_fun (inner_fun c t).2 t' = (Raise StopIteration, (inner_fun c t).2).
Proof.
  unfold inner_fun at 1 3 4. intros Hraise Hle.
  destruct (inner_fun_loop_raise _ _ _ _ _ Hraise) as (-> & Hit & Hafter).
  split; [done|]. destruct (inner_fun_loop _ _ _ t).2 as [it' b' a']. simpl in *. subst it'.
  unfold inner_fun. simpl.
  destruct (Z.ltb_spec (timestamp a') t'); [done | lia].
Qed.

Lemma cursor_exhausted_stays_exhausted_witness :
  StopIteration = StopIteration
  ∧ inner_fun (inner_fun (mkCursor [] ex_a ex_b) 11).2 12
    = (Raise StopIteration, (inner_fun (mkCursor [] ex_a ex_b) 11).2).
Proof.
  apply (cursor_exhausted_stays_exhausted (mkCursor [] ex_a ex_b) 11 12 StopIteration).
  - reflexivity.
  - lia.
Defined.

Lemma pairwise_snd {X} (l : list X) : (pairwise l).*2 = tail l.
Proof.
  destruct l as [|x l]; [done|]. revert x.
  induction l as [|y l IH]; intros x; [done|].
  change (pairwise (x :: y :: l)) with ((x, y) :: pairwise (y :: l)).
  rewrite fmap_cons, IH. done.
Qed.

Lemma inner_fun_loop_within {A} (it : list (State A * State A)) (b a s_last : State A)
    (t : datetime) :
  last (a :: it.*2) = Some s_last → t ≤ timestamp s_last →
  (∃ s, (inner_fun_loop it b a t).1 = Ok s)
  ∧ last (state_after (inner_fun_loop it b a t).2
          :: (state_iter (inner_fun_loop it b a t).2).*2) = Some s_last.
Proof.
  revert b a. induction it as [|[b' a'] it IH]; intros b a Hlast Ht; simpl.
  - simpl in Hlast. injection Hlast as ->.
    destruct (Z.ltb_spec (timestamp s_last) t); [lia|]. simpl. eauto.
  - destruct (Z.ltb_spec (timestamp a) t).
    + apply IH; [|done]. by rewrite fmap_cons, last_cons_cons in Hlast.
    + simpl. eauto.
Qed.

Lemma call_all_within {A} (c : Cursor A) (s_last : State A) (ts : list datetime) :
  last (state_after c :: (state_iter c).*2) = Some s_last →
  Forall (λ t, t ≤ timestamp s_last) ts →
  raised (call_all c ts) = 0%nat.
Proof.
  revert c. induction ts as [|t ts IH]; intros c Hlast Hall; [done|].
  apply Forall_cons in Hall as [Ht Hall]. simpl.
  destruct (inner_fun_loop_within (state_iter c) (state_before c) (state_after c)
              s_last t Hlast Ht) as [[s Hs] Hlast'].
  unfold inner_fun. destruct (inner_fun_loop _ _ _ _) as [r c']. simpl in *. subst r.
  simpl. by apply IH.
Qed.

(** X9.  Over a sequence of any order, calls for times at or below the
    timestamp of the last state never raise, in whatever order they come,
    and all together they call [next] at most [N - 2] times for a sequence of
    [N] states. *)
Theorem cursor_calls_within_last_timestamp {A} (states : list (State A))
    (s_last : State A) (c : Cursor A) (ts : list datetime) :
  _get_previous_state states = Ok c → last states = Some s_last →
  Forall (λ t, t ≤ timestamp s_last) ts →
  raised (call_all c ts) = 0%nat ∧ (call_all_nexts c ts + 2 ≤ length states)%nat.
Proof.
  intros Hc Hlast Hall.
  assert (raised (call_all c ts) = 0%nat) as Hnone.
  { apply (call_all_within c s_last); [|done].
    unfold _get_previous_state in Hc. pose proof (pairwise_snd states) as Hsnd.
    destruct (pairwise states) as [|[b a] rest] eqn:E; [done|]. injection Hc as <-.
    simpl. rewrite fmap_cons in Hsnd. simpl in Hsnd. rewrite Hsnd.
    destruct states as [|s0 states']; [done|]. simpl.
    destruct states' as [|s1 states'']; [done|]. by rewrite last_cons_cons in Hlast. }
  split; [done|]. destruct (cursor_total_nexts states c ts Hc) as [Hbound _]. lia.
Qed.

Lemma cursor_calls_within_last_timestamp_witness :
  raised (call_all (mkCursor [(ex_u1, ex_u2); (ex_u2, ex_u3)] ex_u0 ex_u1) [5; 3; 4]) = 0%nat
  ∧ (call_all_nexts (mkCursor [(ex_u1, ex_u2); (ex_u2, ex_u3)] ex_u0 ex_u1)
       [5%Z; 3%Z; 4%Z] + 2
     ≤ length ex_unordered)%nat.
Proof.
  apply (cursor_calls_within_last_timestamp ex_unordered ex_u3
           (mkCursor [(ex_u1, ex_u2); (ex_u2, ex_u3)] ex_u0 ex_u1) [5; 3; 4]).
  - reflexivity.
  - reflexivity.
  - repeat constructor; simpl; lia.
Defined.

(** ** The call: the single-time form and the outcomes *)

Lemma sms_states_added {A M} (h : list (Cell A M)) (o : SmsObject) (out : list (State A)) :
  sms_states (h ++ added_cells (length h) o (Ok out)) (length h) = Ok out.
Proof.
  unfold sms_states, get_sms, get_states, added_cells.
  rewrite lookup_app_r, Nat.sub_diag by lia.
  destruct (attr_metadatas o); simpl.
  - rewrite lookup_app_r by lia.
    by replace (length h + 2 - length h)%nat with 2%nat by lia.
  - rewrite lookup_app_r by lia.
    by replace (length h + 1 - length h)%nat with 1%nat by lia.
Qed.

Lemma interpolate_states_single `{Platform} {A} (states : list (State A)) (D : nat)
    (t : datetime) :
  uniform_dimension D states → in_span states t →
  ∃ s, interpolate_states states [t] = ([], Ok [s]) ∧ result_state states D [t] t = Some s.
Proof.
  intros Hdim Hspan. pose proof Hspan as (s_first & s_last & Hh & Hl & _).
  assert (filter (in_span states) [t] = [t]) as Hkept.
  { rewrite filter_cons_True by done. done. }
  destruct (interpolate_states_spec states s_first s_last D [t] Hh Hl Hdim)
    as (out & Heq & Hall).
  { by rewrite Hkept. }
  rewrite Hkept in Hall. unfold expected_warnings in Heq.
  rewrite decide_True in Heq by (by repeat constructor).
  apply Forall2_cons_inv_l in Hall as (s & out' & Hs & Hnil & ->).
  apply Forall2_nil_inv_l in Hnil as ->. eauto.
Qed.

(** X10.  Called with a single time, the function returns a state, not a
    sequence: for a time in the span it is the one state the list form
    returns for that time alone, the store being left as by the list form and
    no warning given; for a time outside the span (or an empty sequence) the
    call raises [IndexError]. *)
Theorem single_time_form `{Platform} {A M} (h : list (Cell A M))
    (sms : loc) (states : list (State A)) (D : nat) (t : datetime) :
  sms_states h sms = Ok states → uniform_dimension D states →
  if decide (in_span states t) then
    ∃ s, interpolate_state_mutable_sequence sms (OneTime t) h
         = ([], Ok (RState s), (interpolate_state_mutable_sequence sms (TimeList [t]) h).2)
         ∧ returned_states sms [t] h = Ok [s]
         ∧ result_state states D [t] t = Some s
         ∧ timestamp s = t
  else (interpolate_state_mutable_sequence sms (OneTime t) h).1 = ([], Raise IndexError).
Proof.
  intros Hs Hdim. destruct (sms_states_inv _ _ _ Hs) as (o & Ho & Hst).
  destruct (decide (in_span states t)) as [Hspan|Hout].
  - destruct (interpolate_states_single states D t Hdim Hspan) as (s & Heq & Hres).
    exists s. rewrite (returned_states_spec _ _ _ _ Hs), Heq.
    split_and!; [| done | done | by apply (result_state_timestamp states D [t])].
    rewrite (interpolate_list_form _ _ _ _ _ Ho Hst).
    unfold interpolate_state_mutable_sequence.
    rewrite (interpolate_times_list_spec _ _ _ _ _ Ho Hst), Heq. simpl.
    by rewrite sms_states_added.
  - unfold interpolate_state_mutable_sequence.
    rewrite (interpolate_times_list_spec _ _ _ _ _ Ho Hst).
    destruct states as [|s0 states'] eqn:Hstates; [done|]. rewrite <- Hstates in *.
    rewrite interpolate_states_all_outside; [done | by subst | done |].
    by rewrite filter_cons_False.
Qed.

Lemma single_time_form_witness :
  (∃ s, interpolate_state_mutable_sequence 2%nat (OneTime 5) ex_store
        = ([], Ok (RState s),
           (interpolate_state_mutable_sequence 2%nat (TimeList [5]) ex_store).2)
        ∧ returned_states 2%nat [5] ex_store = Ok [s]
        ∧ result_state [ex_a; ex_b] 2 [5] 5 = Some s
        ∧ timestamp s = 5)
  ∧ (interpolate_state_mutable_sequence 2%nat (OneTime 15) ex_store).1
    = ([], Raise IndexError).
Proof.
  split.
  - apply (single_time_form ex_store 2%nat [ex_a; ex_b] 2 5).
    + reflexivity.
    + repeat constructor.
  - apply (single_time_form ex_store 2%nat [ex_a; ex_b] 2 15).
    + reflexivity.
    + repeat constructor.
Defined.

Lemma interpolate_states_no_states `{Platform} {A} (times : list datetime) :
  interpolate_states (@nil (State A)) times = ([], Raise IndexError).
Proof. reflexivity. Qed.

Lemma interpolate_states_no_times `{Platform} {A} (states : list (State A)) :
  states ≠ [] → interpolate_states states [] = ([], Raise ValueError).
Proof.
  intros Hne. unfold interpolate_states, filter_times, getitem_last, getitem_first.
  destruct (last states) eqn:El; [|by apply last_None in El].
  destruct states; [done|]. done.
Qed.

(** X11.  On a sequence whose vectors all have one dimension, a call on a
    list of times returns a sequence exactly when some requested time is in
    the span, whether or not the sequence is time-ordered.  Otherwise it
    raises [ValueError] when the list of times is empty and the sequence is
    not, and [IndexError] in every other case. *)
Theorem call_outcome `{Platform} {A M} (h : list (Cell A M))
    (sms : loc) (states : list (State A)) (D : nat) (times : list datetime) :
  sms_states h sms = Ok states → uniform_dimension D states →
  if decide (Exists (in_span states) times) then
    ∃ out, returned_states sms times h = Ok out ∧ (length out ≤ length times)%nat
  else
    returned_states sms times h
    = Raise (if decide (states ≠ [] ∧ times = []) then ValueError else IndexError).
Proof.
  intros Hs Hdim. destruct (decide (Exists (in_span states) times)) as [Hex|Hnone].
  - destruct (returned_states_ok h sms states D times Hs Hdim Hex) as (out & Hout & Hall).
    exists out. split; [done|]. apply Forall2_length in Hall. rewrite <- Hall.
    apply length_filter.
  - rewrite (returned_states_spec _ _ _ _ Hs).
    destruct states as [|s0 states'] eqn:Hstates.
    { rewrite decide_False by naive_solver. by rewrite interpolate_states_no_states. }
    rewrite <- Hstates in *.
    destruct times as [|t0 times'] eqn:Htimes.
    { rewrite decide_True by (by subst). rewrite interpolate_states_no_times; by subst. }
    rewrite <- Htimes in *. rewrite decide_False by (subst; naive_solver).
    rewrite interpolate_states_all_outside; [done | by subst | by subst |].
    apply filter_none. by apply not_Exists_Forall; [intros ?; apply _|].
Qed.

Lemma call_outcome_witness :
  (∃ out, returned_states 1%nat [3; 7] ex_store_unordered = Ok out
          ∧ (length out ≤ length [3%Z; 7%Z])%nat)
  ∧ returned_states 2%nat [] ex_store = Raise ValueError
  ∧ returned_states 2%nat [11; -1] ex_store = Raise IndexError.
Proof.
  split_and!.
  - apply (call_outcome ex_store_unordered 1%nat ex_unordered 1 [3; 7]).
    + reflexivity.
    + repeat constructor.
  - apply (call_outcome ex_store 2%nat [ex_a; ex_b] 2 []).
    + reflexivity.
    + repeat constructor.
  - apply (call_outcome ex_store 2%nat [ex_a; ex_b] 2 [11; -1]).
    + reflexivity.
    + repeat constructor.
Defined.

(** ** The call: times that are already there *)

Lemma sorted_nothing_missing (times keys : list datetime) :
  Forall (λ t, t ∈ keys) times →
  sorted (list_to_set times ∖ list_to_set keys) = [].
Proof.
  intros Hall. destruct (sorted _) as [|t l] eqn:E; [done|].
  assert (t ∈ sorted (list_to_set times ∖ list_to_set keys)) as Hin.
  { rewrite E. apply list_elem_of_here. }
  rewrite elem_of_sorted, elem_of_difference, !elem_of_list_to_set in Hin.
  destruct Hin as [Hin Hnin]. rewrite Forall_forall in Hall. by apply Hall in Hin.
Qed.

Lemma interpolate_states_existing `{Platform} {A} (states : list (State A))
    (times : list datetime) :
  times ≠ [] → Forall (in_span states) times →
  Forall (λ t, t ∈ timestamp <$> states) times →
  ∃ out, interpolate_states states times = ([], Ok out)
         ∧ Forall2 (λ t s, later_state_at states t = Some s) times out.
Proof.
  intros Hne Hspan Hpresent.
  destruct times as [|t0 times'] eqn:Htimes; [done|]. rewrite <- Htimes in *.
  assert (in_span states t0) as (s_first & s_last & Hh & Hl & _).
  { rewrite Forall_forall in Hspan. apply Hspan. subst. apply list_elem_of_here. }
  unfold interpolate_states. rewrite (filter_times_spec _ _ _ _ Hh Hl Hne).
  rewrite decide_True by done. unfold interpolate_missing.
  rewrite sorted_nothing_missing.
  2:{ eapply Forall_impl; [exact Hpresent|]. intros t Ht. simpl.
      by apply time_state_dict_keys_elem. }
  simpl.
  destruct (mapR_Forall2 (dict_getitem (time_state_dict_of states))
              (λ t s, later_state_at states t = Some s) times) as (out & -> & Hall).
  { intros t Ht. unfold dict_getitem. rewrite time_state_dict_get.
    rewrite Forall_forall in Hpresent. specialize (Hpresent t Ht).
    apply time_state_dict_keys_elem, dict_get_is_Some in Hpresent as [s Hget].
    rewrite time_state_dict_get in Hget. rewrite Hget. eauto. }
  eauto.
Qed.

(** X12.  When every requested time is in the span and is a timestamp of
    the sequence, nothing is interpolated: whatever the dimensions of the
    vectors, the call succeeds without a warning and returns, for each
    requested time in order, the later state of the sequence at that time. *)
Theorem existing_times_need_no_interpolation `{Platform} {A M} (h : list (Cell A M))
    (sms : loc) (states : list (State A)) (times : list datetime) :
  sms_states h sms = Ok states → times ≠ [] →
  Forall (in_span states) times → Forall (λ t, t ∈ timestamp <$> states) times →
  ∃ out, returned_states sms times h = Ok out
         ∧ Forall2 (λ t s, later_state_at states t = Some s) times out
         ∧ emitted_warnings sms (TimeList times) h = []
         ∧ times_to_interpolate_of states times = [].
Proof.
  intros Hs Hne Hspan Hpresent.
  destruct (interpolate_states_existing states times Hne Hspan Hpresent)
    as (out & Heq & Hall).
  exists out. rewrite (returned_states_spec _ _ _ _ Hs), (emitted_warnings_spec _ _ _ _ Hs).
  rewrite Heq. split_and!; [done | done | done |].
  unfold times_to_interpolate_of. apply sorted_nothing_missing.
  eapply Forall_impl; [exact Hpresent|]. intros t Ht. simpl.
  by apply time_state_dict_keys_elem.
Qed.

Lemma existing_times_need_no_interpolation_witness :
  ∃ out, returned_states 1%nat [3; 1; 3] ex_store_late = Ok out
         ∧ Forall2 (λ t s, later_state_at ex_late t = Some s) [3; 1; 3] out
         ∧ emitted_warnings 1%nat (TimeList [3; 1; 3]) ex_store_late = []
         ∧ times_to_interpolate_of ex_late [3; 1; 3] = [].
Proof.
  assert (∀ t, t = 1 ∨ t = 3 → in_span ex_late t) as Hspan.
  { intros t Ht. eexists _, _. split; [reflexivity|]. split; [reflexivity|]. simpl. lia. }
  apply (existing_times_need_no_interpolation ex_store_late 1%nat ex_late [3; 1; 3]).
  - reflexivity.
  - discriminate.
  - repeat constructor; apply Hspan; lia.
  - repeat constructor; simpl; rewrite !elem_of_cons; lia.
Defined.

Lemma later_state_at_self {A} (states : list (State A)) (s : State A) :
  NoDup (timestamp <$> states) → s ∈ states →
  later_state_at states (timestamp s) = Some s.
Proof.
  intros Hnd Hs.
  assert (timestamp s ∈ dict_keys (time_state_dict_of states)) as Hkey.
  { apply time_state_dict_keys_elem, list_elem_of_fmap. eauto. }
  apply dict_get_is_Some in Hkey as [s' Hget]. rewrite time_state_dict_get in Hget.
  rewrite Hget. f_equal. apply later_state_at_elem in Hget as [Hs' Heq].
  apply list_elem_of_lookup in Hs as [i Hi]. apply list_elem_of_lookup in Hs' as [j Hj].
  assert (i = j) as ->; [|congruence].
  apply (NoDup_lookup (timestamp <$> states) i j (timestamp s)); [done | |].
  - by rewrite list_lookup_fmap, Hi.
  - by rewrite list_lookup_fmap, Hj, <- Heq.
Qed.

(** X13.  Interpolating a non-empty sequence whose timestamps strictly
    increase at its own timestamps gives back its states, in order and
    without a warning. *)
Theorem interpolating_at_own_timestamps `{Platform} {A M} (h : list (Cell A M))
    (sms : loc) (states : list (State A)) :
  sms_states h sms = Ok states → states ≠ [] →
  StronglySorted Z.lt (timestamp <$> states) →
  returned_states sms (timestamp <$> states) h = Ok states
  ∧ emitted_warnings sms (TimeList (timestamp <$> states)) h = [].
Proof.
  intros Hs Hne Hsorted.
  assert (time_ordered states) as Hord.
  { unfold time_ordered. clear -Hsorted.
    induction Hsorted as [|x l Hl IH Hx]; constructor; [done|].
    destruct l as [|y l]; constructor. apply Forall_cons in Hx as [Hxy _]. lia. }
  assert (NoDup (timestamp <$> states)) as Hnd.
  { clear -Hsorted. induction Hsorted as [|x l Hl IH Hx]; constructor; [|done].
    intros Hin. rewrite Forall_forall in Hx. specialize (Hx x Hin). lia. }
  destruct (interpolate_states_existing states (timestamp <$> states)) as (out & Heq & Hall).
  - by destruct states.
  - apply Forall_forall. intros t Ht. by apply present_in_span.
  - by apply Forall_forall.
  - rewrite (returned_states_spec _ _ _ _ Hs), (emitted_warnings_spec _ _ _ _ Hs), Heq.
    split; [|done]. simpl. f_equal. symmetry. apply list_eq. intros i.
    apply Forall2_fmap_l in Hall.
    destruct (states !! i) as [s|] eqn:Hi.
    + destruct (Forall2_lookup_l _ _ _ _ _ Hall Hi) as (s' & Hi' & Hlater).
      simpl in Hlater. rewrite later_state_at_self in Hlater;
        [congruence | done | by eapply list_elem_of_lookup_2].
    + apply lookup_ge_None in Hi. symmetry. apply lookup_ge_None.
      apply Forall2_length in Hall. lia.
Qed.

Lemma interpolating_at_own_timestamps_witness :
  returned_states 2%nat (timestamp <$> [ex_a; ex_b]) ex_store = Ok [ex_a; ex_b]
  ∧ emitted_warnings 2%nat (TimeList (timestamp <$> [ex_a; ex_b])) ex_store = [].
Proof.
  apply (interpolating_at_own_timestamps ex_store 2%nat [ex_a; ex_b]).
  - reflexivity.
  - discriminate.
  - repeat constructor; simpl; lia.
Defined.

(** X14.  When the call returns a sequence, it gives no warning exactly
    when every requested time is in the span; it never gives more than one
    warning. *)
Theorem warning_iff_time_dropped `{Platform} {A M} (h : list (Cell A M))
    (sms : loc) (states : list (State A)) (times : list datetime) :
  sms_states h sms = Ok states → Exists (in_span states) times →
  (emitted_warnings sms (TimeList times) h = [] ↔ Forall (in_span states) times)
  ∧ (length (emitted_warnings sms (TimeList times) h) ≤ 1)%nat.
Proof.
  intros Hs Hex. rewrite (emitted_warnings_spec _ _ _ _ Hs).
  apply Exists_exists in Hex as (t & Ht & Hspan).
  pose proof Hspan as (s_first & s_last & Hh & Hl & _).
  assert (times ≠ []) as Hne by (intros ->; by apply elem_of_nil in Ht).
  assert (filter (in_span states) times ≠ []) as Hkept.
  { intros Hnil. assert (t ∈ filter (in_span states) times) as Hin
      by (by apply list_elem_of_filter).
    rewrite Hnil in Hin. by apply elem_of_nil in Hin. }
  unfold interpolate_states. rewrite (filter_times_spec _ _ _ _ Hh Hl Hne).
  destruct (decide (Forall (in_span states) times)) as [Hall|Hnall]; simpl.
  - split; [done | lia].
  - rewrite decide_False by done. simpl. split; [|lia]. split; [done|]. done.
Qed.

Lemma warning_iff_time_dropped_witness :
  (emitted_warnings 2%nat (TimeList [5; 15]) ex_store = []
   ↔ Forall (in_span [ex_a; ex_b]) [5; 15])
  ∧ (length (emitted_warnings 2%nat (TimeList [5%Z; 15%Z]) ex_store) ≤ 1)%nat.
Proof.
  apply (warning_iff_time_dropped ex_store 2%nat [ex_a; ex_b] [5; 15]).
  - reflexivity.
  - apply Exists_cons_hd. eexists _, _. split; [reflexivity|]. split; [reflexivity|].
    simpl. lia.
Defined.

(** ** The call on a sequence of any order *)

(** X15.  Whatever the order of the sequence, each state of the returned
    sequence is, for its requested time [t]: the later state of the sequence
    at [t] when [t] is a timestamp of the sequence; and otherwise the clone,
    at [t] and with the column that [np.interp] gives for [t] in this call,
    of the earlier state of the first consecutive pair of the sequence as
    given whose later state has a timestamp at or after [t]. *)
Theorem returned_state_for_any_order `{Platform} {A M} (h : list (Cell A M))
    (sms : loc) (states : list (State A)) (D : nat) (times : list datetime) :
  sms_states h sms = Ok states → uniform_dimension D states →
  Exists (in_span states) times →
  ∃ out, returned_states sms times h = Ok out
         ∧ length out = length (filter (in_span states) times)
         ∧ ∀ (i : nat) t, filter (in_span states) times !! i = Some t →
             ∃ s, out !! i = Some s
                  ∧ ((t ∈ timestamp <$> states ∧ later_state_at states t = Some s)
                     ∨ ((t ∉ timestamp <$> states)
                        ∧ ∃ p, first_pair_reaching states t = Some p
                               ∧ s = from_state p.1 t
                                       (interpolated_vector (time_state_dict_of states) D
                                          (times_to_interpolate_of states
                                             (filter (in_span states) times)) t))).
Proof.
  intros Hs Hdim Hex.
  destruct (returned_states_ok h sms states D times Hs Hdim Hex) as (out & Hout & Hall).
  exists out. split; [done|]. split; [symmetry; by eapply Forall2_length|].
  intros i t Hi. destruct (Forall2_lookup_l _ _ _ _ _ Hall Hi) as (s & Hsi & Hres).
  exists s. split; [done|]. unfold result_state in Hres.
  destruct (later_state_at states t) as [s'|] eqn:Hlater.
  - left. injection Hres as <-. split; [|done].
    apply later_state_at_elem in Hlater as [Hin <-]. apply list_elem_of_fmap. eauto.
  - right. split.
    + rewrite <- time_state_dict_get in Hlater. apply dict_get_None in Hlater.
      by rewrite time_state_dict_keys_elem in Hlater.
    + destruct (first_pair_reaching states t) as [p|]; [|done].
      injection Hres as <-. eauto.
Qed.

Lemma returned_state_for_any_order_witness :
  ∃ out, returned_states 1%nat [3; 2] ex_store_unordered = Ok out
         ∧ length out = length (filter (in_span ex_unordered) [3; 2])
         ∧ ∀ (i : nat) t, filter (in_span ex_unordered) [3; 2] !! i = Some t →
             ∃ s, out !! i = Some s
                  ∧ ((t ∈ timestamp <$> ex_unordered ∧ later_state_at ex_unordered t = Some s)
                     ∨ ((t ∉ timestamp <$> ex_unordered)
                        ∧ ∃ p, first_pair_reaching ex_unordered t = Some p
                               ∧ s = from_state p.1 t
                                       (interpolated_vector (time_state_dict_of ex_unordered)
                                          1
                                          (times_to_interpolate_of ex_unordered
                                             (filter (in_span ex_unordered) [3; 2])) t))).
Proof.
  apply (returned_state_for_any_order ex_store_unordered 1%nat ex_unordered 1 [3; 2]).
  - reflexivity.
  - repeat constructor.
  - apply Exists_cons_hd. eexists _, _. split; [reflexivity|]. split; [reflexivity|].
    simpl. lia.
Defined.
